(** * ism_animation.py: a shallow embedding of the ISM animation script

    The script draws a 2D room with its image sources, grows one circle per
    image source at the speed of sound, reveals the room impulse response
    (RIR) in step with the circles, and writes the frames to a video file.

    The embedding follows the three functions of [ism_animation.py]:
    [plot_room], [animate] and [create_animation].  Matplotlib objects that
    the script mutates (circles, lines, axes) live in a store indexed by
    object references, so that the list [propagations] and the axes share
    the very same circles, as they do in Python.  Python exceptions are the
    left summand of a small error monad.  Numbers are kept behind the
    interface [Arith]; its instance [binary64] is IEEE-754 double precision,
    the arithmetic of Python floats, and [exactQ] is exact rational
    arithmetic. *)

From Stdlib Require Import ZArith QArith Qabs PrimFloat Uint63 SpecFloat FloatOps FloatAxioms.
From stdpp Require Import gmap strings list fin_maps pretty.
Close Scope Q_scope.
Open Scope Z_scope.

(** ** Python exceptions and the error monad *)

Inductive PyError :=
| ZeroDivisionError
| NameError (name : string)
| IndexError
| ValueError
| OverflowError
| CalledProcessError.

Definition Result (A : Type) : Type := PyError + A.
Definition Ok {A} (a : A) : Result A := inr a.
Definition Raise {A} (e : PyError) : Result A := inl e.

#[global] Instance result_ret : MRet Result := fun A => @Ok A.
#[global] Instance result_bind : MBind Result := fun A B f m =>
  match m with
  | inl e => inl e
  | inr a => f a
  end.

Definition or_raise {A} (e : PyError) (o : option A) : Result A :=
  match o with
  | Some a => Ok a
  | None => Raise e
  end.

Definition succeeds {A} (r : Result A) : Prop := exists a, r = Ok a.

(** ** Python and numpy sequence operations *)

(** [l[i]] on a Python sequence: a negative index counts from the end,
    anything out of range raises [IndexError]. *)
Definition py_index {A} (l : list A) (i : Z) : Result A :=
  let len := Z.of_nat (length l) in
  if bool_decide (0 <= i < len) then or_raise IndexError (l !! Z.to_nat i)
  else if bool_decide (- len <= i < 0) then or_raise IndexError (l !! Z.to_nat (len + i))
  else Raise IndexError.

(** [l[:n]]: the first [n] items, or all but the last [-n] when [n < 0]. *)
Definition py_slice_to {A} (l : list A) (n : Z) : list A :=
  if bool_decide (0 <= n) then take (Z.to_nat n) l
  else take (Z.to_nat (Z.of_nat (length l) + n)) l.

(** [np.arange(n)] for an integer [n]: [0, 1, ..., n-1], empty when [n <= 0]. *)
Definition arange (n : Z) : list Z := Z.of_nat <$> seq 0 (Z.to_nat n).

(** [a[mask]] for a boolean mask of the same length. *)
Fixpoint mask_select {A} (l : list A) (mask : list bool) : list A :=
  match l, mask with
  | a :: l', b :: mask' => if b then a :: mask_select l' mask' else mask_select l' mask'
  | _, _ => []
  end.

(** [range(n)] as a list of integers. *)
Definition py_range (n : Z) : list Z := arange n.

(** ** Arithmetic *)

(** The numeric operations the script uses.  [truediv] is Python's [/] on two
    integers (the divisor is non-zero, see [py_truediv]); [fdiv] is the
    division of doubles, as numpy applies it element by element; [of_dec m k]
    is the decimal literal [m * 10^-k]; [to_int] is [int(x)], undefined on
    infinities and NaN; [format_3f] is [format(x, ".3f")]. *)
Class Arith (F : Type) := {
  of_int : Z -> F;
  of_dec : Z -> nat -> F;
  truediv : Z -> Z -> F;
  fdiv : F -> F -> F;
  fmul : F -> F -> F;
  fsub : F -> F -> F;
  to_int : F -> option Z;
  format_3f : F -> string
}.

(** Decimal rendering with three digits after the point of an exact
    rational [q], rounding half to even; [neg] is the sign to print. *)
Definition round_half_even (q : Q) : Z :=
  let n := Qnum q in
  let d := Zpos (Qden q) in
  let fl := n / d in
  let r2 := 2 * (n mod d) in
  if r2 <? d then fl
  else if d <? r2 then fl + 1
  else if Z.even fl then fl else fl + 1.

Definition pad3 (z : Z) : string :=
  let s := pretty z in
  if z <? 10 then ("00" ++ s)%string
  else if z <? 100 then ("0" ++ s)%string
  else s.

Definition format_3f_exact (neg : bool) (q : Q) : string :=
  let r := round_half_even (Qabs q * 1000)%Q in
  ((if neg then "-" else "") ++ pretty (r / 1000) ++ "." ++ pad3 (r mod 1000))%string.

(** *** Exact rational arithmetic *)

Definition Q_trunc (q : Q) : Z := Z.quot (Qnum q) (Zpos (Qden q)).

#[global] Instance exactQ : Arith Q := {|
  of_int := inject_Z;
  of_dec := fun m k => (inject_Z m / inject_Z (10 ^ Z.of_nat k))%Q;
  truediv := fun n d => (inject_Z n / inject_Z d)%Q;
  fdiv := Qdiv;
  fmul := Qmult;
  fsub := Qminus;
  to_int := fun q => Some (Q_trunc q);
  format_3f := fun q => format_3f_exact (Qnum q <? 0) q
|}.

(** *** IEEE-754 binary64, the arithmetic of Python floats *)

Module B64.

Definition SF_of_Z (z : Z) : spec_float :=
  match z with
  | Z0 => S754_zero false
  | Zpos p => S754_finite false p 0
  | Zneg p => S754_finite true p 0
  end.

Definition small (z : Z) : bool := Z.abs z <? 2 ^ 53.

(** [float(z)]: exact below [2^53], rounded to nearest even above. *)
Definition of_Z (z : Z) : float :=
  if small z then
    (if z <? 0 then PrimFloat.opp (PrimFloat.of_uint63 (Uint63.of_Z (- z)))
     else PrimFloat.of_uint63 (Uint63.of_Z z))
  else SF2Prim (binary_normalize prec emax z 0 false).

(** The correctly rounded quotient of two integers.  When both convert
    exactly, the division of the two doubles is that quotient. *)
Definition div_Z (n d : Z) : float :=
  if small n && small d then PrimFloat.div (of_Z n) (of_Z d)
  else SF2Prim (SFdiv prec emax (SF_of_Z n) (SF_of_Z d)).

Definition pow2Q (e : Z) : Q :=
  match e with
  | Z0 => 1%Q
  | Zpos p => inject_Z (Z.pow_pos 2 p)
  | Zneg p => Qmake 1 (Pos.pow 2 p)
  end.

Definition to_Q (x : float) : option (bool * Q) :=
  match Prim2SF x with
  | S754_zero s => Some (s, 0%Q)
  | S754_finite s m e => Some (s, (inject_Z (Zpos m) * pow2Q e)%Q)
  | _ => None
  end.

Definition trunc (x : float) : option Z :=
  match to_Q x with
  | Some (s, q) => Some (if s then - Q_trunc q else Q_trunc q)
  | None => None
  end.

Definition format (x : float) : string :=
  match Prim2SF x with
  | S754_nan => "nan"
  | S754_infinity s => if s then "-inf" else "inf"
  | _ => match to_Q x with
         | Some (s, q) => format_3f_exact s q
         | None => "nan"
         end
  end.

End B64.

#[global] Instance binary64 : Arith float := {|
  of_int := B64.of_Z;
  of_dec := fun m k => B64.div_Z m (10 ^ Z.of_nat k);
  truediv := B64.div_Z;
  fdiv := PrimFloat.div;
  fmul := PrimFloat.mul;
  fsub := PrimFloat.sub;
  to_int := B64.trunc;
  format_3f := B64.format
|}.

(** Multiplication of doubles is commutative, and so is that of rationals. *)
Class ArithLaws (F : Type) `{Arith F} := {
  fmul_comm : forall x y : F, fmul x y = fmul y x
}.

(** The quotient [n / d] of two integers rounds to a double beyond the
    largest one, [2^1024 - 2^971]: it is at least [2^1024 - 2^970] in
    magnitude. *)
Definition truediv_overflows (n d : Z) : bool :=
  (2 ^ 1025 - 2 ^ 971) * Z.abs d <=? 2 * Z.abs n.

(** [n / d] on Python integers: [ZeroDivisionError] for [d = 0],
    [OverflowError] when the result is too large for a float. *)
Definition py_truediv `{Arith F} (n d : Z) : Result F :=
  if bool_decide (d = 0) then Raise ZeroDivisionError
  else if truediv_overflows n d then Raise OverflowError
  else Ok (truediv n d).

(** [int(x)] on a Python float. *)
Definition py_int `{Arith F} (x : F) : Result Z :=
  or_raise OverflowError (to_int x).

(** ** Matplotlib objects *)

Abbreviation loc := nat (only parsing).

Inductive Color :=
| NamedColor (name : string)
| RGB (r g b : Z)
| CycleColor (k : nat).

Section Model.
Context {F : Type} `{AF : Arith F}.

(** [patches.Circle]; [c_alpha] is the attribute [alpha] that [animate]
    assigns, absent until then. *)
Record Circle := mkCircle {
  c_center : F * F;
  c_radius : F;
  c_alpha : option F;
  c_fill : bool;
  c_linewidth : Z;
  c_edgecolor : Color
}.

Record Line2D := mkLine2D {
  l_xdata : list F;
  l_ydata : list F;
  l_color : Color
}.

(** What an axes holds: the room polygon, scatter plots, and references to
    the circles and lines of the store. *)
Inductive Artist :=
| PatchCollection (polygons : list (list (F * F))) (facecolor edgecolor : Color)
| Scatter (xs ys : list F) (c : Color)
| Patch (r : loc)
| Line (r : loc).

Record Axes := mkAxes {
  ax_aspect : option string;
  ax_title : string;
  ax_xlabel : string;
  ax_ylabel : string;
  ax_xlim : option (F * F);
  ax_ylim : option (F * F);
  ax_artists : list Artist;
  ax_cycle : nat
}.

Definition empty_axes : Axes := mkAxes None "" "" "" None None [] 0.

(** The store of mutable objects. *)
Record Scene := mkScene {
  circles : gmap loc Circle;
  lines : gmap loc Line2D;
  axes : gmap loc Axes
}.

Definition with_circles (f : gmap loc Circle -> gmap loc Circle) (s : Scene) : Scene :=
  mkScene (f (circles s)) (lines s) (axes s).
Definition with_lines (f : gmap loc Line2D -> gmap loc Line2D) (s : Scene) : Scene :=
  mkScene (circles s) (f (lines s)) (axes s).
Definition with_axes (f : gmap loc Axes -> gmap loc Axes) (s : Scene) : Scene :=
  mkScene (circles s) (lines s) (f (axes s)).

(** *** Methods of circles and lines *)

Definition circle_set_radius (r : F) (c : Circle) : Circle :=
  mkCircle (c_center c) r (c_alpha c) (c_fill c) (c_linewidth c) (c_edgecolor c).
Definition circle_set_alpha (a : F) (c : Circle) : Circle :=
  mkCircle (c_center c) (c_radius c) (Some a) (c_fill c) (c_linewidth c) (c_edgecolor c).
Definition line_set_data (xs ys : list F) (l : Line2D) : Line2D :=
  mkLine2D xs ys (l_color l).

Definition set_radius (p : loc) (r : F) : Scene -> Scene :=
  with_circles (alter (circle_set_radius r) p).
Definition set_alpha (p : loc) (a : F) : Scene -> Scene :=
  with_circles (alter (circle_set_alpha a) p).
Definition set_data (l : loc) (xs ys : list F) : Scene -> Scene :=
  with_lines (alter (line_set_data xs ys) l).

(** *** Methods of axes *)

Definition on_axes (f : Axes -> Axes) (ax : loc) : Scene -> Scene :=
  with_axes (alter f ax).

Definition axes_set_aspect (v : string) (a : Axes) : Axes :=
  mkAxes (Some v) (ax_title a) (ax_xlabel a) (ax_ylabel a) (ax_xlim a) (ax_ylim a)
         (ax_artists a) (ax_cycle a).
Definition axes_set_title (v : string) (a : Axes) : Axes :=
  mkAxes (ax_aspect a) v (ax_xlabel a) (ax_ylabel a) (ax_xlim a) (ax_ylim a)
         (ax_artists a) (ax_cycle a).
Definition axes_set_xlabel (v : string) (a : Axes) : Axes :=
  mkAxes (ax_aspect a) (ax_title a) v (ax_ylabel a) (ax_xlim a) (ax_ylim a)
         (ax_artists a) (ax_cycle a).
Definition axes_set_ylabel (v : string) (a : Axes) : Axes :=
  mkAxes (ax_aspect a) (ax_title a) (ax_xlabel a) v (ax_xlim a) (ax_ylim a)
         (ax_artists a) (ax_cycle a).
Definition axes_set_xlim (lo hi : F) (a : Axes) : Axes :=
  mkAxes (ax_aspect a) (ax_title a) (ax_xlabel a) (ax_ylabel a) (Some (lo, hi)) (ax_ylim a)
         (ax_artists a) (ax_cycle a).
Definition axes_set_ylim (lo hi : F) (a : Axes) : Axes :=
  mkAxes (ax_aspect a) (ax_title a) (ax_xlabel a) (ax_ylabel a) (ax_xlim a) (Some (lo, hi))
         (ax_artists a) (ax_cycle a).
Definition axes_add (x : Artist) (a : Axes) : Axes :=
  mkAxes (ax_aspect a) (ax_title a) (ax_xlabel a) (ax_ylabel a) (ax_xlim a) (ax_ylim a)
         (ax_artists a ++ [x]) (ax_cycle a).
Definition axes_advance_cycle (a : Axes) : Axes :=
  mkAxes (ax_aspect a) (ax_title a) (ax_xlabel a) (ax_ylabel a) (ax_xlim a) (ax_ylim a)
         (ax_artists a) (S (ax_cycle a)).

(** The references to circles and to lines among the artists of an axes. *)
Definition patch_refs (a : Axes) : list loc :=
  omap (fun x => match x with Patch r => Some r | _ => None end) (ax_artists a).

Definition line_refs (a : Axes) : list loc :=
  omap (fun x => match x with Line r => Some r | _ => None end) (ax_artists a).

(** The colour the property cycle of [ax] hands out next. *)
Definition next_color (ax : loc) (s : Scene) : Color :=
  CycleColor (from_option ax_cycle 0%nat (axes s !! ax)).

(** [ax.scatter(xs, ys)] without a colour: takes the next colour of the
    cycle and returns it (the facecolor of the new collection). *)
Definition scatter (ax : loc) (xs ys : list F) (s : Scene) : Color * Scene :=
  let color := next_color ax s in
  (color, on_axes (fun a => axes_advance_cycle (axes_add (Scatter xs ys color) a)) ax s).

(** [ax.scatter(x, y, c="k", ...)]: the cycle is left alone. *)
Definition scatter_colored (ax : loc) (xs ys : list F) (c : Color) : Scene -> Scene :=
  on_axes (axes_add (Scatter xs ys c)) ax.

(** [patches.Circle(...)] followed by [ax.add_patch(circle)]: a new object
    in the store, referenced from the axes. *)
Definition new_circle (c : Circle) (s : Scene) : loc * Scene :=
  let r := fresh (dom (circles s)) in
  (r, with_circles (insert r c) s).

Definition add_patch (ax : loc) (r : loc) : Scene -> Scene :=
  on_axes (axes_add (Patch r)) ax.

(** [ax.plot(xs, ys)]: a new line with the next colour of the cycle. *)
Definition plot (ax : loc) (xs ys : list F) (s : Scene) : loc * Scene :=
  let color := next_color ax s in
  let r := fresh (dom (lines s)) in
  (r, on_axes (fun a => axes_advance_cycle (axes_add (Line r) a)) ax
        (with_lines (insert r (mkLine2D xs ys color)) s)).

(** A monadic [for] loop over a list. *)
Fixpoint for_each {A S} (l : list A) (body : A -> S -> Result S) (s : S) : Result S :=
  match l with
  | [] => Ok s
  | a :: l' => s' ← body a s; for_each l' body s'
  end.

(** ** The script's inputs from pyroomacoustics *)

(** [wall.corners]: one row per coordinate, one column per corner. *)
Record Wall := mkWall { corners : list (list F) }.

(** A sound source after [image_source_model()]: [images] has one row per
    coordinate and one column per image source, [orders] one entry per
    image source. *)
Record SoundSource := mkSoundSource {
  images : list (list F);
  orders : list Z
}.

(** [room_mics] are the rows of [room.mic_array.R.T], one position per
    microphone. *)
Record Room := mkRoom {
  room_walls : list Wall;
  room_mics : list (list F);
  room_sources : list SoundSource;
  room_max_order : Z;
  room_fs : Z
}.

(** ** [plot_room] *)

(** [wall.corners[:, 0]], the first corner of a wall: every row needs a
    column 0. *)
Definition first_corner (w : Wall) : Result (list F) :=
  or_raise IndexError (mapM (fun row => row !! 0%nat) (corners w)).

(** [[wall.corners[:, 0] for wall in walls]] *)
Fixpoint first_corners (ws : list Wall) : Result (list (list F)) :=
  match ws with
  | [] => Ok []
  | w :: ws' => c ← first_corner w; cs ← first_corners ws'; Ok (c :: cs)
  end.

(** [patches.Polygon(corners.T, closed=True)] takes a non-empty array of
    vertices with two coordinates each. *)
Fixpoint vertices (cs : list (list F)) : Result (list (F * F)) :=
  match cs with
  | [] => Ok []
  | [x; y] :: cs' => vs ← vertices cs'; Ok ((x, y) :: vs)
  | _ :: _ => Raise ValueError
  end.

Definition room_polygon (ws : list Wall) : Result (list (F * F)) :=
  cs ← first_corners ws;
  vs ← vertices cs;
  match vs with
  | [] => Raise ValueError
  | _ => Ok vs
  end.

(** [im_sources.orders == order] *)
Definition order_mask (im : SoundSource) (order : Z) : list bool :=
  (fun o => bool_decide (o = order)) <$> orders im.

(** [(x, y) = im_sources.images[:, indices]]: boolean indexing along the
    second axis needs a mask as long as the rows, and the unpacking needs
    exactly two rows. *)
Definition select_images (im : SoundSource) (indices : list bool) : Result (list F * list F) :=
  if bool_decide (Forall (fun row => length row = length indices) (images im)) then
    match images im with
    | [xs; ys] => Ok (mask_select xs indices, mask_select ys indices)
    | _ => Raise ValueError
    end
  else Raise IndexError.

(** [indices.sum()] *)
Definition mask_sum (indices : list bool) : Z :=
  Z.of_nat (length (filter (fun b => b = true) indices)).

(** [patches.Circle((x, y), radius=0, fill=False, linewidth=2,
    edgecolor=color)], added to the axes and appended to [propagations]. *)
Definition add_circle (ax : loc) (color : Color) (st : list loc * Scene) (pt : F * F)
    : list loc * Scene :=
  let '(circle, s) := new_circle (mkCircle pt (of_int 0) None false 2 color) st.2 in
  (st.1 ++ [circle], add_patch ax circle s).

(** The body of the inner loop, at index [i]. *)
Definition add_propagation (ax : loc) (x y : list F) (color : Color) (i : Z)
    (st : list loc * Scene) : Result (list loc * Scene) :=
  xi ← py_index x i;
  yi ← py_index y i;
  Ok (add_circle ax color st (xi, yi)).

(** The body of the loop over the orders. *)
Definition plot_order (ax : loc) (im : SoundSource) (order : Z)
    (st : list loc * Scene) : Result (list loc * Scene) :=
  let indices := order_mask im order in
  '(x, y) ← select_images im indices;
  let '(color, s) := scatter ax x y st.2 in
  for_each (py_range (mask_sum indices)) (add_propagation ax x y color) (st.1, s).

(** The commented blocks of [plot_room], in their order. *)
Definition plot_walls (ax : loc) (walls : list Wall) (s : Scene) : Result Scene :=
  polygon ← room_polygon walls;
  Ok (on_axes (axes_add (PatchCollection [polygon] (RGB 1 1 1) (RGB 0 0 0))) ax s).

Definition plot_microphones (ax : loc) (mic_pos : list F) (s : Scene) : Result Scene :=
  mx ← py_index mic_pos 0;
  my ← py_index mic_pos 1;
  Ok (scatter_colored ax [mx] [my] (NamedColor "k") s).

Definition plot_image_sources (ax : loc) (im_sources : SoundSource) (max_order : Z)
    (s : Scene) : Result (list loc * Scene) :=
  for_each (py_range (max_order + 1)) (plot_order ax im_sources) ([], s).

Definition set_labels (axs : loc * loc) (s : Scene) : Scene :=
  let s := on_axes (axes_set_title "Room Impulse Response of a shoebox room") axs.1 s in
  let s := on_axes (axes_set_xlabel "x-coordinates [m]") axs.1 s in
  let s := on_axes (axes_set_ylabel "y-coordinates [m]") axs.1 s in
  let s := on_axes (axes_set_title "Microphone measurement $y(t)$") axs.2 s in
  let s := on_axes (axes_set_xlabel "Time [s]") axs.2 s in
  let s := on_axes (axes_set_ylabel "Amplitude") axs.2 s in
  let s := on_axes (axes_set_xlim (of_int 0) (of_dec 1 1)) axs.2 s in
  on_axes (axes_set_ylim (of_dec (-5) 2) (of_dec 25 2)) axs.2 s.

(** The times [np.arange(size) / fs] of a signal of [size] samples. *)
Definition time_axis (size : Z) (fs : Z) : list F :=
  (fun k => fdiv (of_int k) (of_int fs)) <$> arange size.

Definition plot_initial_rir (ax : loc) (fs : Z) (init_rir : list F) (s : Scene) : Scene :=
  if bool_decide (0 < Z.of_nat (length init_rir)) then
    let t := time_axis (Z.of_nat (length init_rir)) fs in
    (plot ax t init_rir s).2
  else s.

Definition plot_room (axs : loc * loc) (walls : list Wall) (mic_pos : list F)
    (im_sources : SoundSource) (max_order : Z) (fs : Z) (init_rir : list F)
    (s : Scene) : Result (loc * list loc * Scene) :=
  let s := on_axes (axes_set_aspect "equal") axs.1 s in
  s ← plot_walls axs.1 walls s;
  s ← plot_microphones axs.1 mic_pos s;
  '(propagations, s) ← plot_image_sources axs.1 im_sources max_order s;
  let s := set_labels axs s in
  let s := plot_initial_rir axs.2 fs init_rir s in
  let '(line, s) := plot axs.2 [] [] s in
  Ok (line, propagations, s).

(** *** Vocabulary for the image sources *)

(** The image sources as triples of a position and an order. *)
Definition image_sources (im : SoundSource) : list (F * F * Z) :=
  match images im with
  | [xs; ys] => zip (zip xs ys) (orders im)
  | _ => []
  end.

(** [images] has the two rows of a 2D room, each with one entry per
    entry of [orders]. *)
Definition consistent (im : SoundSource) : Prop :=
  exists xs ys, images im = [xs; ys] /\
    length xs = length (orders im) /\ length ys = length (orders im).

(** What [plot_room] needs to run to its end: walls that make a polygon,
    a microphone position with two coordinates and, if the loop over the
    orders runs at all, consistent image sources. *)
Definition plot_room_ready (walls : list Wall) (mic_pos : list F) (im : SoundSource)
    (max_order : Z) : Prop :=
  succeeds (room_polygon walls) /\ (2 <= length mic_pos)%nat /\
  (0 <= max_order -> consistent im).

(** The positions of the image sources of one order, in array order. *)
Definition positions_of_order (im : SoundSource) (order : Z) : list (F * F) :=
  fst <$> filter (fun t => t.2 = order) (image_sources im).

(** The centres of the circles of [plot_room], in the order of creation:
    order 0 first, then order 1, and so on up to [max_order]. *)
Definition expected_positions (im : SoundSource) (max_order : Z) : list (F * F) :=
  concat (positions_of_order im <$> arange (max_order + 1)).

(** The image sources whose order lies in [0 .. max_order]. *)
Definition in_range (max_order : Z) (t : F * F * Z) : Prop := 0 <= t.2 <= max_order.

(** A circle as [plot_room] creates it. *)
Definition fresh_circle_at (s : Scene) (r : loc) (pt : F * F) : Prop :=
  exists c, circles s !! r = Some c /\ c_center c = pt /\ c_radius c = of_int 0 /\
            c_alpha c = None.

(** [s'] is [s] with new circles [refs] centred at [pts]; nothing else in
    the store of circles or lines changed, and only the axes [ax] did. *)
Definition grows (ax : loc) (s s' : Scene) (refs : list loc) (pts : list (F * F)) : Prop :=
  NoDup refs /\
  Forall (fun r => circles s !! r = None) refs /\
  Forall2 (fresh_circle_at s') refs pts /\
  (forall r, r ∉ refs -> circles s' !! r = circles s !! r) /\
  lines s' = lines s /\
  (forall a, a <> ax -> axes s' !! a = axes s !! a).

(** ** [animate] *)

Definition frame_title (t_ind : F) : string :=
  ("Room Impulse Response of a shoebox room " ++ "(t = " ++ format_3f t_ind ++ "s)")%string.

(** The two statements that act on the circle; [343.0] is the double of
    the integer 343. *)
Definition update_circle (t_ind : F) (propagation : loc) (s : Scene) : Scene :=
  let s := set_radius propagation (fmul t_ind (of_int 343)) s in
  set_alpha propagation (fsub (of_int 1) (fmul t_ind (of_int 10))) s.

(** What these two statements write into a circle. *)
Definition frame_circle (t_ind : F) (c : Circle) : Circle :=
  circle_set_alpha (fsub (of_int 1) (fmul t_ind (of_int 10)))
                   (circle_set_radius (fmul t_ind (of_int 343)) c).

(** The two statements that reveal the RIR and update the title. *)
Definition reveal (frame_num : Z) (ax line : loc) (rir : list F) (fs : Z) (t_ind : F)
    (s : Scene) : Scene :=
  let s := set_data line (time_axis frame_num fs) (py_slice_to rir frame_num) s in
  on_axes (axes_set_title (frame_title t_ind)) ax s.

Definition animate_body (frame_num : Z) (ax line : loc) (rir : list F) (fs : Z) (t_ind : F)
    (s : Scene) (propagation : loc) : Scene :=
  reveal frame_num ax line rir fs t_ind (update_circle t_ind propagation s).

Definition animate (frame_num : Z) (ax line : loc) (propagations : list loc)
    (rir : list F) (fs : Z) (s : Scene) : Result Scene :=
  t_ind ← py_truediv frame_num fs;
  Ok (foldl (animate_body frame_num ax line rir fs t_ind) s propagations).

(** ** [create_animation] *)

Record Figure := mkFigure {
  fig_axes : list loc;
  fig_tight : bool
}.

(** A written video file: the writer's frame rate and one picture of the
    store per frame. *)
Record Video := mkVideo {
  v_fps : Z;
  v_frames : list Scene
}.

(** [pyplot] keeps the open figures, the last one being current; the file
    system maps names to videos. *)
Record World := mkWorld {
  scene : Scene;
  figures : list Figure;
  files : gmap string Video
}.

(** [plt.subplots(2, ...)]: a new current figure with two new axes. *)
Definition subplots2 (w : World) : loc * loc * World :=
  let a := fresh (dom (axes (scene w))) in
  let s := with_axes (insert a empty_axes) (scene w) in
  let b := fresh (dom (axes s)) in
  let s := with_axes (insert b empty_axes) s in
  (a, b, mkWorld s (figures w ++ [mkFigure [a; b] false]) (files w)).

(** [plt.tight_layout()] on the current figure. *)
Definition tight_layout (figs : list Figure) : list Figure :=
  match reverse figs with
  | [] => []
  | f :: rest => reverse rest ++ [mkFigure (fig_axes f) true]
  end.

(** [plt.close()] closes the current figure. *)
Definition close (figs : list Figure) : list Figure :=
  match reverse figs with
  | [] => []
  | _ :: rest => reverse rest
  end.

(** [np.broadcast_arrays(x, y)] on two arrays of one dimension: they have
    the same length, or one of them has length 1. *)
Definition broadcasts (a b : nat) : bool :=
  bool_decide (a = b) || bool_decide (a = 1%nat) || bool_decide (b = 1%nat).

(** A line can be drawn when its x and y data broadcast against each
    other. *)
Definition line_drawable (s : Scene) (r : loc) : bool :=
  match lines s !! r with
  | Some l => broadcasts (length (l_xdata l)) (length (l_ydata l))
  | None => true
  end.

(** The lines on the axes of a figure. *)
Definition figure_lines (fig : list loc) (s : Scene) : list loc :=
  concat ((fun ax => from_option line_refs [] (axes s !! ax)) <$> fig).

(** Drawing a figure, given by its axes: every line on them is drawn, and a
    line whose data do not broadcast ends it with [ValueError]. *)
Definition draw (fig : list loc) (s : Scene) : Result unit :=
  if forallb (line_drawable s) (figure_lines fig s) then Ok tt else Raise ValueError.

(** One frame of the saved animation: the callback runs, then the writer
    grabs the figure, which draws it. *)
Definition render_frame (fig : list loc) (ax line : loc) (propagations : list loc)
    (rir : list F) (fs : Z) (frame_num : Z) (st : list Scene * Scene)
    : Result (list Scene * Scene) :=
  s ← animate frame_num ax line propagations rir fs st.2;
  _ ← draw fig s;
  Ok (st.1 ++ [s], s).

(** [FuncAnimation(fig, animate, frames=n, fargs=...)] saved through the
    FFMpeg writer.  A negative frame count is refused with [ValueError]
    when the animation is made; the frames of [range(n)] are rendered in
    turn; with no frame at all the encoder fails and the writer ends with
    [CalledProcessError].  (The redraw of frame 0 that precedes saving
    repeats [animate(0, ...)].) *)
Definition render (fig : list loc) (frames : Z) (ax line : loc) (propagations : list loc)
    (rir : list F) (fs : Z) (s : Scene) : Result (list Scene * Scene) :=
  if bool_decide (frames < 0) then Raise ValueError
  else
    r ← for_each (py_range frames) (render_frame fig ax line propagations rir fs) ([], s);
    if bool_decide (frames = 0) then Raise CalledProcessError else Ok r.

(** Default arguments. *)
Definition default_fs : Z := 1.
Definition default_src_recv_idx : Z * Z := (0, 0).
Definition default_init_rir : list F := [].

(** [int(0.1 * room.fs)], the number of frames. *)
Definition frame_count (fs : Z) : Result Z :=
  py_int (fmul (of_dec 1 1) (of_int fs)).

(** [globals] are the module-level names visible to the function; the
    script binds [room_dim] to a list of integers. *)
Definition create_animation (globals : gmap string (list Z)) (room : Room) (rir : list F)
    (src_recv_idx : Z * Z) (init_rir : list F) (filename : string)
    (w : World) : Result World :=
  let '(ax_a, ax_b, w) := subplots2 w in
  mic_pos ← py_index (room_mics room) src_recv_idx.1;
  im_sources ← py_index (room_sources room) src_recv_idx.2;
  '(line, propagations, s) ←
    plot_room (ax_a, ax_b) (room_walls room) mic_pos im_sources (room_max_order room)
              (room_fs room) init_rir (scene w);
  (* Restrict view limits to the room dimensions *)
  room_dim ← or_raise (NameError "room_dim") (globals !! "room_dim"%string);
  w0 ← py_index room_dim 0;
  let s := on_axes (axes_set_xlim (of_int 0) (of_int w0)) ax_a s in
  room_dim ← or_raise (NameError "room_dim") (globals !! "room_dim"%string);
  h0 ← py_index room_dim 1;
  let s := on_axes (axes_set_ylim (of_int 0) (of_int h0)) ax_a s in
  let figs := tight_layout (figures w) in
  (* Initialize animation *)
  frames ← frame_count (room_fs room);
  (* Execute animation and write to file *)
  '(pictures, s) ← render [ax_a; ax_b] frames ax_a line propagations rir (room_fs room) s;
  let video := mkVideo 60 pictures in
  Ok (mkWorld s (close figs) (<[(filename ++ ".mp4")%string := video]> (files w))).

(** *** Vocabulary for the animation *)

(** The alpha that frame [n] assigns, [1 - (n / fs) * 10]. *)
Definition frame_alpha (n fs : Z) : F :=
  fsub (of_int 1) (fmul (truediv n fs) (of_int 10)).

(** The store after the call of [animate] for frame [n], for [fs <> 0]. *)
Definition frame_scene (ax line : loc) (propagations : list loc) (rir : list F) (fs : Z)
    (n : Z) (s : Scene) : Scene :=
  foldl (animate_body n ax line rir fs (truediv n fs)) s propagations.

(** The pictures of the frames [ns], each drawn on top of the one before. *)
Fixpoint run_frames (ax line : loc) (propagations : list loc) (rir : list F) (fs : Z)
    (ns : list Z) (s : Scene) : list Scene :=
  match ns with
  | [] => []
  | n :: ns' =>
      let s' := frame_scene ax line propagations rir fs n s in
      s' :: run_frames ax line propagations rir fs ns' s'
  end.

(** The part of the inputs that [create_animation] indexes and hands to
    [plot_room] lets both run to their end. *)
Definition plot_inputs_ready (room : Room) (src_recv_idx : Z * Z) : Prop :=
  exists mic_pos im_sources,
    py_index (room_mics room) src_recv_idx.1 = Ok mic_pos /\
    py_index (room_sources room) src_recv_idx.2 = Ok im_sources /\
    plot_room_ready (room_walls room) mic_pos im_sources (room_max_order room).

(** The global [room_dim] is bound to a list with a width and a height. *)
Definition room_dim_ready (globals : gmap string (list Z)) : Prop :=
  exists dims, globals !! "room_dim"%string = Some dims /\ (2 <= length dims)%nat.

(** There is a frame, and [n / fs] is a double for every frame number:
    the rate is not zero and the quotient of the last frame, the largest,
    is in range. *)
Definition frames_ready (frames fs : Z) : Prop :=
  0 < frames /\ fs <> 0 /\ truediv_overflows (frames - 1) fs = false.

(** The store when the animation starts: the view of [ax] is restricted
    to [0 .. d0] by [0 .. d1]. *)
Definition restrict_view (ax : loc) (d0 d1 : Z) (s : Scene) : Scene :=
  on_axes (axes_set_ylim (of_int 0) (of_int d1)) ax
    (on_axes (axes_set_xlim (of_int 0) (of_int d0)) ax s).


(** The reveal line of frame [n] can be drawn: with no circle it keeps its
    data, otherwise it holds [n] times against the samples [rir[:n]]. *)
Definition reveal_drawable (propagations : list loc) (rir : list F) (n : Z) : bool :=
  match propagations with
  | [] => true
  | _ => broadcasts (Z.to_nat n) (length (py_slice_to rir n))
  end.

(** Every frame can be drawn: no circle is made, or the response has a
    single sample, or it has a sample for each time of the last frame (of
    the second frame at least, whose single time broadcasts). *)
Definition response_ready (room : Room) (src_recv_idx : Z * Z) (rir : list F)
    (frames : Z) : Prop :=
  forall im, py_index (room_sources room) src_recv_idx.2 = Ok im ->
    expected_positions im (room_max_order room) = [] \/
    length rir = 1%nat \/
    frames - 1 <= Z.max 1 (Z.of_nat (length rir)).

(** In the store [s] the reveal line [line] is one of the lines of the
    figure, and every other line of the figure can be drawn; so can the
    reveal line when no circle is listed. *)
Definition figure_ready (fig : list loc) (line : loc) (propagations : list loc)
    (s : Scene) : Prop :=
  line ∈ figure_lines fig s /\ is_Some (lines s !! line) /\
  (propagations = [] -> line_drawable s line = true) /\
  forall r, r ∈ figure_lines fig s -> r <> line -> line_drawable s r = true.

End Model.

(** ** A concrete room

    The shoebox room of the script's main block, 10 m by 6 m, sampled at
    8000 Hz (the library's default), with its two microphones; the source at
    [(2, 4)] is given with its images up to order 2. *)

Module Demo.

Definition wall (x0 y0 x1 y1 : Z) : Wall (F:=float) :=
  mkWall [[of_int x0; of_int x1]; [of_int y0; of_int y1]].

Definition source : SoundSource (F:=float) :=
  mkSoundSource
    [of_int <$> [-2; 18; 2; 2; 2; 22; -18];
     of_int <$> [4; 4; -4; 8; 4; 4; 4]]
    [1; 1; 1; 1; 0; 2; 2].

Definition room_at (fs : Z) : Room (F:=float) :=
  mkRoom [wall 0 0 10 0; wall 10 0 10 6; wall 10 6 0 6; wall 0 6 0 0]
         [[of_dec 6316 3; of_dec 3754 3]; [of_dec 4123 3; of_dec 3312 3]]
         [source]
         1 fs.

Definition room : Room (F:=float) := room_at 8000.

(** The same room sampled at 100 Hz, for runs of ten frames. *)
Definition slow_room : Room (F:=float) := room_at 100.

Definition rir : list float := (fun k => of_dec k 2) <$> [0; 0; 25; 10; -3; 7; 1; 0].

(** A response of twelve samples, enough for the ten frames of 100 Hz. *)
Definition long_rir : list float :=
  (fun k => of_dec k 2) <$> [0; 0; 25; 10; -3; 7; 1; 0; 2; -1; 0; 0].

Definition globals : gmap string (list Z) := {[ "room_dim"%string := [10; 6] ]}.

Definition empty_scene : Scene (F:=float) := mkScene ∅ ∅ ∅.
Definition empty_world : World (F:=float) := mkWorld empty_scene [] ∅.

(** A scene with two axes, a reveal line and three circles, two of them
    listed twice in [propagations]. *)
Definition circle0 (x y : Z) : Circle (F:=float) :=
  mkCircle (of_int x, of_int y) (of_int 0) None false 2 (CycleColor 0).

Definition scene3 : Scene (F:=float) :=
  mkScene (<[0%nat := circle0 2 4]> (<[1%nat := circle0 (-2) 4]> (<[2%nat := circle0 18 4]> ∅)))
          {[ 0%nat := mkLine2D [] [] (CycleColor 0) ]}
          (<[0%nat := empty_axes]> (<[1%nat := empty_axes]> ∅)).

Definition propagations : list loc := [0; 1; 0]%nat.

(** Another binding of the global [room_dim]. *)
Definition other_globals : gmap string (list Z) := {[ "room_dim"%string := [5; 5] ]}.


(** The right end of the x-axis of the first axes after a run. *)
Definition xlim_right (r : Result (World (F:=float))) : option Z :=
  match r with
  | inr w =>
      match axes (scene w) !! 0%nat with
      | Some a => match ax_xlim a with
                  | Some (_, hi) => to_int hi
                  | None => None
                  end
      | None => None
      end
  | inl _ => None
  end.

End Demo.

(** ** Checking the frames of a sampling rate in binary64

    For one sampling rate the alpha of every frame can be computed; the
    checks below run over all frames [0 .. int(0.1 * fs) - 1]. *)

Module Frames.

(** [0 < alpha <= 1] at frame [n]. *)
Definition alpha_in_range (fs n : Z) : bool :=
  let a := frame_alpha (F:=float) n fs in
  PrimFloat.ltb 0 a && PrimFloat.leb a 1.

(** The alpha of frame [n + 1] is below that of frame [n]. *)
Definition alpha_drops (fs n : Z) : bool :=
  PrimFloat.ltb (frame_alpha (F:=float) (n + 1) fs) (frame_alpha (F:=float) n fs).

(** The checks for the [fuel] frames from [n] on; the last of them has no
    successor to compare with. *)
Fixpoint check_from (fuel : nat) (fs n : Z) : bool :=
  match fuel with
  | O => true
  | S fuel' =>
      alpha_in_range fs n &&
      match fuel' with
      | O => true
      | S _ => alpha_drops fs n
      end &&
      check_from fuel' fs (n + 1)
  end.

Definition check_rate (fs : Z) : bool :=
  match frame_count (F:=float) fs with
  | inr count =>
      PrimFloat.Leibniz.eqb (frame_alpha (F:=float) 0 fs) 1 &&
      check_from (Z.to_nat count) fs 0
  | inl _ => false
  end.

(** The usual audio sampling rates, in Hz. *)
Definition audio_rates : list Z :=
  [8000; 11025; 16000; 22050; 32000; 44100; 48000; 88200; 96000; 176400; 192000].

End Frames.

(** ** The main block of the script

    The room, its image sources and its impulse responses come from
    pyroomacoustics; the block takes them as they are after
    [room.compute_rir()], removes the delay of the fractional delay filter
    and renders the two animations. *)

(** [l[n:]]: all but the first [n] items, or the last [-n] when [n < 0]. *)
Definition py_slice_from {A} (l : list A) (n : Z) : list A :=
  if bool_decide (0 <= n) then drop (Z.to_nat n) l
  else drop (Z.to_nat (Z.of_nat (length l) + n)) l.

Section Script.
Context {F : Type} `{AF : Arith F}.

(** A wall of a 2D room: [corners] has two rows, each with a first entry. *)
Definition wall_ok (w : Wall (F:=F)) : Prop :=
  exists x xs y ys, corners w = [x :: xs; y :: ys].

(** A change of an axes that adds neither a patch nor a line. *)
Definition keeps_refs (f : Axes (F:=F) -> Axes (F:=F)) : Prop :=
  forall a, patch_refs (f a) = patch_refs a /\ line_refs (f a) = line_refs a.

(** From [s] to [s'] the axes [ax], if it is in the store, gained the
    circles [refs] as patches, in this order, and no line. *)
Definition adds_patches (ax : loc) (s s' : Scene (F:=F)) (refs : list loc) : Prop :=
  forall a, axes s !! ax = Some a ->
    exists a', axes s' !! ax = Some a' /\
      patch_refs a' = patch_refs a ++ refs /\ line_refs a' = line_refs a.

(** The radius that frame [n] gives to the circles, [(n / fs) * 343.0]. *)
Definition frame_radius (n fs : Z) : F := fmul (truediv n fs) (of_int 343).

(** The module-level names when [create_animation] is called from the main
    block. *)
Definition script_globals : gmap string (list Z) := {[ "room_dim"%string := [10; 6] ]}.

(** The main block from [compute_rir()] on: [room_rir] is [room.rir], indexed
    by microphone and source, [frac_delay_length] the constant of that name. *)
Definition main (room : Room (F:=F)) (room_rir : list (list (list F)))
    (frac_delay_length : Z) (w : World (F:=F)) : Result World :=
  (* Remove delay from RIRs due to fractional delay filter *)
  let frac_delay := frac_delay_length `div` 2 in
  row ← py_index room_rir 0;
  h ← py_index row 0;
  let rir_1 := py_slice_from h frac_delay in
  row ← py_index room_rir 1;
  h ← py_index row 1;
  let rir_2 := py_slice_from h frac_delay in
  (* Create animations *)
  w ← create_animation script_globals room rir_1 default_src_recv_idx default_init_rir
        "ism_anim_1" w;
  create_animation script_globals room rir_2 (1, 1) rir_1 "ism_anim_2" w.

End Script.

(** ** More concrete inputs *)

Module Demo2.

(** The demo room asked for no image source at all. *)
Definition bare_room : Room (F:=float) :=
  mkRoom (room_walls Demo.room) (room_mics Demo.room) (room_sources Demo.room) (-1) 100.

(** The second source of the script, at [(8, 1)], with its images of order
    at most 1. *)
Definition source2 : SoundSource (F:=float) :=
  mkSoundSource
    [of_int <$> [-8; 12; 8; 8; 8];
     of_int <$> [1; 1; -1; 11; 1]]
    [1; 1; 1; 1; 0].

(** The room of the main block with both sources, at 100 Hz. *)
Definition script_room : Room (F:=float) :=
  mkRoom (room_walls Demo.room) (room_mics Demo.room) [Demo.source; source2] 1 100.

(** [room.rir], one response per microphone and source. *)
Definition room_rir : list (list (list float)) :=
  [[Demo.long_rir; (fun k => of_dec k 2) <$> [0; 0; 0; 20; 5]];
   [(fun k => of_dec k 2) <$> [0; 0; 0; 0; 15];
    (fun k => of_dec k 2) <$> [0; 0; 30; 12; -4; 2; 1; 0; 0; 1; 0; 0]]].

(** A world that already holds the objects of the demo scene. *)
Definition scene3_world : World (F:=float) := mkWorld Demo.scene3 [] ∅.

(** The store after frame [n] of the demo scene at 8000 Hz. *)
Definition after_frame (n : Z) : Scene (F:=float) :=
  frame_scene 0%nat 0%nat Demo.propagations Demo.rir 8000 n Demo.scene3.

End Demo2.

(** ** Checking the wavefront of a sampling rate in binary64 *)

Module Wavefront.

(** The radius at frame [n] is not negative and below 34.3 m, the distance
    sound covers in the 0.1 s of the animation. *)
Definition radius_in_range (fs n : Z) : bool :=
  let r := frame_radius (F:=float) n fs in
  PrimFloat.leb 0 r && PrimFloat.ltb r (of_dec 343 1).

(** The radius of frame [n + 1] is above that of frame [n]. *)
Definition radius_grows (fs n : Z) : bool :=
  PrimFloat.ltb (frame_radius (F:=float) n fs) (frame_radius (F:=float) (n + 1) fs).

Fixpoint check_from (fuel : nat) (fs n : Z) : bool :=
  match fuel with
  | O => true
  | S fuel' =>
      radius_in_range fs n &&
      match fuel' with
      | O => true
      | S _ => radius_grows fs n
      end &&
      check_from fuel' fs (n + 1)
  end.

Definition check_rate (fs : Z) : bool :=
  match frame_count (F:=float) fs with
  | inr count => check_from (Z.to_nat count) fs 0
  | inl _ => false
  end.

End Wavefront.

(** * Properties *)

(** ** The arithmetic instances *)

Lemma Qmult_comm_eq (x y : Q) : Qmult x y = Qmult y x.
Proof.
  destruct x as [a b], y as [c d]. unfold Qmult. simpl.
  by rewrite Z.mul_comm, Pos.mul_comm.
Qed.

#[global] Instance exactQ_laws : @ArithLaws Q exactQ.
Proof. constructor. exact Qmult_comm_eq. Qed.

Lemma SFmul_comm (x y : spec_float) : SFmul prec emax x y = SFmul prec emax y x.
Proof.
  destruct x as [sx| sx | | sx mx ex], y as [sy | sy | | sy my ey]; simpl;
    rewrite ?(xorb_comm sx sy); try reflexivity.
  by rewrite Pos.mul_comm, Z.add_comm.
Qed.

Lemma float_mul_comm (x y : float) : PrimFloat.mul x y = PrimFloat.mul y x.
Proof.
  apply Prim2SF_inj. rewrite !mul_spec. apply SFmul_comm.
Qed.

#[global] Instance binary64_laws : @ArithLaws float binary64.
Proof. constructor. exact float_mul_comm. Qed.

(** ** Error monad and sequence operations *)

Lemma bind_Ok {A B} (f : A -> Result B) (a : A) : (Ok a ≫= f) = f a.
Proof. reflexivity. Qed.

Lemma bind_inv {A B} (f : A -> Result B) (m : Result A) (b : B) :
  (m ≫= f) = Ok b -> exists a, m = Ok a /\ f a = Ok b.
Proof. destruct m as [e | a]; [discriminate | eauto]. Qed.

Lemma length_arange (n : Z) : length (arange n) = Z.to_nat n.
Proof. unfold arange. by rewrite length_fmap, length_seq. Qed.

Lemma lookup_arange (n : Z) (k : nat) :
  (k < Z.to_nat n)%nat -> arange n !! k = Some (Z.of_nat k).
Proof.
  intros Hk. unfold arange. rewrite list_lookup_fmap, lookup_seq_lt by done.
  reflexivity.
Qed.

Lemma arange_nonpos (n : Z) : n <= 0 -> arange n = [].
Proof. intros Hn. unfold arange. by replace (Z.to_nat n) with 0%nat by lia. Qed.

Lemma arange_succ (n : Z) : 0 <= n -> arange (n + 1) = arange n ++ [n].
Proof.
  intros Hn. unfold arange.
  replace (Z.to_nat (n + 1)) with (S (Z.to_nat n)) by lia.
  rewrite seq_S, fmap_app. simpl. by rewrite Z2Nat.id.
Qed.

Lemma py_slice_to_nonneg {A} (l : list A) (n : Z) :
  0 <= n -> py_slice_to l n = take (Z.to_nat n) l.
Proof. intros Hn. unfold py_slice_to. by rewrite bool_decide_eq_true_2. Qed.

Lemma py_index_nat {A} (l : list A) (i : nat) (a : A) :
  l !! i = Some a -> py_index l (Z.of_nat i) = Ok a.
Proof.
  intros Hl. unfold py_index. pose proof (lookup_lt_Some _ _ _ Hl).
  rewrite bool_decide_eq_true_2 by lia. by rewrite Nat2Z.id, Hl.
Qed.

(** ** [animate] *)

Section AnimateProps.
Context {F : Type} `{AF : Arith F}.

Implicit Types (s : Scene (F:=F)) (p ax line : loc) (rir : list F).

Lemma circles_animate_body n ax line rir fs t s p :
  circles (animate_body n ax line rir fs t s p) = alter (frame_circle t) p (circles s).
Proof.
  unfold animate_body, reveal, update_circle. simpl.
  by rewrite alter_alter_eq.
Qed.

Lemma lines_animate_body n ax line rir fs t s p :
  lines (animate_body n ax line rir fs t s p) =
  alter (line_set_data (time_axis n fs) (py_slice_to rir n)) line (lines s).
Proof. reflexivity. Qed.

Lemma axes_animate_body n ax line rir fs t s p :
  axes (animate_body n ax line rir fs t s p) =
  alter (axes_set_title (frame_title t)) ax (axes s).
Proof. reflexivity. Qed.

(** The circles after the loop: every listed circle carries the frame's
    radius and alpha, whatever it carried before. *)
Lemma circles_loop_kept n ax line rir fs t (P : Circle (F:=F) -> Prop) props :
  (forall c, P c -> P (frame_circle t c)) ->
  forall s p c,
    circles s !! p = Some c -> P c ->
    exists c', circles (foldl (animate_body n ax line rir fs t) s props) !! p = Some c' /\ P c'.
Proof.
  intros HP. induction props as [| q props IH]; intros s p c Hp Hc; simpl.
  - eauto.
  - destruct (decide (q = p)) as [-> | Hne].
    + eapply (IH _ p (frame_circle t c)); [| by apply HP].
      rewrite circles_animate_body, lookup_alter_eq, Hp. reflexivity.
    + eapply (IH _ p c); [| done].
      by rewrite circles_animate_body, lookup_alter_ne.
Qed.

Lemma circles_loop_set n ax line rir fs t (P : Circle (F:=F) -> Prop) props :
  (forall c, P (frame_circle t c)) ->
  forall s p,
    p ∈ props -> is_Some (circles s !! p) ->
    exists c', circles (foldl (animate_body n ax line rir fs t) s props) !! p = Some c' /\ P c'.
Proof.
  intros HP. induction props as [| q props IH]; intros s p Hin [c Hp]; simpl.
  - by apply elem_of_nil in Hin.
  - destruct (decide (q = p)) as [-> | Hne].
    + eapply (circles_loop_kept _ _ _ _ _ _ P); [by intros; apply HP | | apply (HP c)].
      rewrite circles_animate_body, lookup_alter_eq, Hp. reflexivity.
    + apply elem_of_cons in Hin as [-> | Hin]; [done |].
      apply IH; [done |].
      exists c. by rewrite circles_animate_body, lookup_alter_ne.
Qed.

(** The reveal and the title are rewritten with the same arguments in
    every round: the loop is the circle updates followed by one reveal. *)
Lemma reveal_update_circle n ax line rir fs t p s :
  reveal n ax line rir fs t (update_circle t p s) =
  update_circle t p (reveal n ax line rir fs t s).
Proof. reflexivity. Qed.

Lemma line_set_data_idem xs ys (l : Line2D (F:=F)) :
  line_set_data xs ys (line_set_data xs ys l) = line_set_data xs ys l.
Proof. reflexivity. Qed.

Lemma axes_set_title_idem v (a : Axes (F:=F)) :
  axes_set_title v (axes_set_title v a) = axes_set_title v a.
Proof. reflexivity. Qed.

Lemma alter_idem `{Countable K} {A} (f : A -> A) (k : K) (m : gmap K A) :
  (forall a, f (f a) = f a) -> alter f k (alter f k m) = alter f k m.
Proof.
  intros Hf. rewrite alter_alter_eq. apply alter_ext. intros a _. apply Hf.
Qed.

Lemma reveal_idem n ax line rir fs t s :
  reveal n ax line rir fs t (reveal n ax line rir fs t s) = reveal n ax line rir fs t s.
Proof.
  unfold reveal, on_axes, set_data, with_axes, with_lines. simpl. f_equal.
  - apply alter_idem, line_set_data_idem.
  - apply alter_idem, axes_set_title_idem.
Qed.

Lemma loop_reveal_once n ax line rir fs t props s :
  foldl (animate_body n ax line rir fs t) (reveal n ax line rir fs t s) props =
  reveal n ax line rir fs t (foldl (fun s p => update_circle t p s) s props).
Proof.
  revert s. induction props as [| p props IH]; intros s; simpl.
  - reflexivity.
  - unfold animate_body at 2. rewrite <- reveal_update_circle, reveal_idem.
    apply IH.
Qed.

End AnimateProps.


(** Live references: every listed circle is an object of the store. *)
Lemma live_lookup {F} (s : Scene (F:=F)) (props : list loc) (p : loc) :
  Forall (fun q => is_Some (circles s !! q)) props -> p ∈ props -> is_Some (circles s !! p).
Proof. intros Hall Hin. by apply (proj1 (Forall_forall _ _) Hall). Qed.

(** The three ways in which a call of [animate] ends. *)
Lemma animate_cases {F} `{Arith F} (n fs : Z) (ax line : loc) (props : list loc)
    (rir : list F) (s : Scene) :
  animate n ax line props rir fs s =
  if bool_decide (fs = 0) then Raise ZeroDivisionError
  else if truediv_overflows n fs then Raise OverflowError
  else Ok (foldl (animate_body n ax line rir fs (truediv n fs)) s props).
Proof.
  unfold animate, py_truediv. case_bool_decide; [done |].
  by destruct (truediv_overflows n fs).
Qed.

Lemma animate_unfold {F} `{Arith F} (n fs : Z) (ax line : loc) (props : list loc)
    (rir : list F) (s : Scene) :
  fs <> 0 -> truediv_overflows n fs = false ->
  animate n ax line props rir fs s =
  Ok (foldl (animate_body n ax line rir fs (truediv n fs)) s props).
Proof.
  intros Hfs Hrange. rewrite animate_cases, Hrange. by rewrite bool_decide_eq_false_2.
Qed.

Lemma animate_Ok_inv {F} `{Arith F} (n fs : Z) (ax line : loc) (props : list loc)
    (rir : list F) (s s' : Scene) :
  animate n ax line props rir fs s = Ok s' ->
  fs <> 0 /\ truediv_overflows n fs = false /\
  s' = foldl (animate_body n ax line rir fs (truediv n fs)) s props.
Proof.
  rewrite animate_cases. case_bool_decide; [done |].
  destruct (truediv_overflows n fs); [done |]. by intros [= <-].
Qed.


(** A quotient smaller in magnitude than one in range is in range. *)
Lemma truediv_overflows_mono (n m d : Z) :
  Z.abs n <= Z.abs m -> truediv_overflows m d = false -> truediv_overflows n d = false.
Proof.
  unfold truediv_overflows. intros Hle Hm.
  apply Z.leb_gt in Hm. apply Z.leb_gt.
  set (bound := 2 ^ 1025 - 2 ^ 971) in *. lia.
Qed.

Lemma animate_loop_nonempty {F} `{Arith F} (n fs : Z) (ax line : loc) (props : list loc)
    (rir : list F) (t : F) (s : Scene) :
  props <> [] ->
  foldl (animate_body n ax line rir fs t) s props =
  reveal n ax line rir fs t (foldl (fun s p => update_circle t p s) s props).
Proof.
  destruct props as [| p props]; [done | intros _]. simpl.
  unfold animate_body at 2. apply loop_reveal_once.
Qed.

Lemma lines_update_loop {F} `{Arith F} (t : F) (props : list loc) (s : Scene) :
  lines (foldl (fun s p => update_circle t p s) s props) = lines s.
Proof. revert s. induction props as [| p props IH]; intros s; simpl; [done |]. by rewrite IH. Qed.

Lemma axes_update_loop {F} `{Arith F} (t : F) (props : list loc) (s : Scene) :
  axes (foldl (fun s p => update_circle t p s) s props) = axes s.
Proof. revert s. induction props as [| p props IH]; intros s; simpl; [done |]. by rewrite IH. Qed.









(** ** What a frame changes, and what it leaves alone *)

Section FrameProps.
Context {F : Type} `{AF : Arith F}.

Implicit Types (s : Scene (F:=F)) (p ax line : loc) (rir : list F).

Lemma frame_circle_absorbs (t t' : F) (c : Circle (F:=F)) :
  frame_circle t (frame_circle t' c) = frame_circle t c.
Proof. reflexivity. Qed.

(** The circles after the loop of [animate]. *)
Lemma circles_frame_loop n ax line rir fs (t : F) props : forall s p,
  circles (foldl (animate_body n ax line rir fs t) s props) !! p =
  if decide (p ∈ props) then frame_circle t <$> circles s !! p else circles s !! p.
Proof.
  induction props as [| q props IH]; intros s p; cbn [foldl].
  - case_decide as Hin; [by apply elem_of_nil in Hin | done].
  - rewrite IH, circles_animate_body.
    destruct (decide (q = p)) as [-> | Hne].
    + rewrite lookup_alter_eq. rewrite (decide_True (P := p ∈ p :: props)) by left.
      case_decide; [| done].
      by destruct (circles s !! p).
    + rewrite lookup_alter_ne by done.
      destruct (decide (p ∈ props)) as [Hin | Hnin].
      * rewrite decide_True; [done | by right].
      * rewrite decide_False; [done |].
        intros [-> | Hin]%elem_of_cons; done.
Qed.

Lemma lines_frame_loop n ax line rir fs (t : F) props s :
  lines (foldl (animate_body n ax line rir fs t) s props) =
  match props with
  | [] => lines s
  | _ => alter (line_set_data (time_axis n fs) (py_slice_to rir n)) line (lines s)
  end.
Proof.
  destruct props as [| q props]; [done |].
  rewrite animate_loop_nonempty by done.
  simpl. by rewrite lines_update_loop.
Qed.

Lemma axes_frame_loop n ax line rir fs (t : F) props s :
  axes (foldl (animate_body n ax line rir fs t) s props) =
  match props with
  | [] => axes s
  | _ => alter (axes_set_title (frame_title t)) ax (axes s)
  end.
Proof.
  destruct props as [| q props]; [done |].
  rewrite animate_loop_nonempty by done.
  simpl. by rewrite axes_update_loop.
Qed.

(** [animate] writes the radius and the alpha of the listed circles, the
    data of the one line and the title of the one axes, and nothing else:
    no object appears or disappears, no circle moves or changes its style,
    unlisted circles, other lines and other axes stay as they are, and the
    axes keeps its artists, labels and limits. *)
Theorem animate_footprint (n fs : Z) ax line props rir s s' :
  animate n ax line props rir fs s = Ok s' ->
  dom (circles s') = dom (circles s) /\
  dom (lines s') = dom (lines s) /\
  dom (axes s') = dom (axes s) /\
  (forall p c, circles s !! p = Some c ->
     exists c', circles s' !! p = Some c' /\
       c_center c' = c_center c /\ c_fill c' = c_fill c /\
       c_linewidth c' = c_linewidth c /\ c_edgecolor c' = c_edgecolor c /\
       (p ∉ props -> c' = c)) /\
  (forall l, l <> line -> lines s' !! l = lines s !! l) /\
  (forall l d, lines s !! l = Some d ->
     exists d', lines s' !! l = Some d' /\ l_color d' = l_color d) /\
  (forall a, a <> ax -> axes s' !! a = axes s !! a) /\
  (forall a x, axes s !! a = Some x ->
     exists x', axes s' !! a = Some x' /\
       ax_artists x' = ax_artists x /\ ax_cycle x' = ax_cycle x /\
       ax_xlim x' = ax_xlim x /\ ax_ylim x' = ax_ylim x /\
       ax_xlabel x' = ax_xlabel x /\ ax_ylabel x' = ax_ylabel x /\
       ax_aspect x' = ax_aspect x).
Proof.
  intros Hrun. apply animate_Ok_inv in Hrun as (_ & _ & ->).
  set (t := truediv n fs).
  assert (Hc : forall p, circles (foldl (animate_body n ax line rir fs t) s props) !! p =
                         if decide (p ∈ props) then frame_circle t <$> circles s !! p
                         else circles s !! p) by (intros; apply circles_frame_loop).
  pose proof (lines_frame_loop n ax line rir fs t props s) as Hl.
  pose proof (axes_frame_loop n ax line rir fs t props s) as Ha.
  split_and!.
  - apply set_eq. intros p. rewrite !elem_of_dom, Hc.
    case_decide; [| done]. by rewrite fmap_is_Some.
  - rewrite Hl. destruct props; [done |]. apply set_eq. intros l.
    rewrite !elem_of_dom, lookup_alter_is_Some. done.
  - rewrite Ha. destruct props; [done |]. apply set_eq. intros a.
    rewrite !elem_of_dom, lookup_alter_is_Some. done.
  - intros p c Hp. rewrite Hc, Hp. case_decide.
    + eexists. split; [reflexivity |]. split_and!; done.
    + eexists. split; [reflexivity |]. split_and!; done.
  - intros l Hne. rewrite Hl. destruct props; [done |]. by rewrite lookup_alter_ne.
  - intros l d Hd. rewrite Hl. destruct props; [eauto |].
    destruct (decide (line = l)) as [-> | Hne].
    + rewrite lookup_alter_eq, Hd. eauto.
    + rewrite lookup_alter_ne by done. eauto.
  - intros a Hne. rewrite Ha. destruct props; [done |]. by rewrite lookup_alter_ne.
  - intros a x Hx. rewrite Ha. destruct props; [eexists; split_and!; done |].
    destruct (decide (ax = a)) as [-> | Hne].
    + rewrite lookup_alter_eq, Hx. eexists. split; [reflexivity |]. split_and!; done.
    + rewrite lookup_alter_ne by done. eexists. split_and!; done.
Qed.

End FrameProps.

(** ** Each frame overwrites the one before *)

Section FrameOrder.
Context {F : Type} `{AF : Arith F}.

Implicit Types (s : Scene (F:=F)) (p ax line : loc) (rir : list F).

Lemma alter_absorbs `{Countable K} {A} (f g : A -> A) (k : K) (m : gmap K A) :
  (forall a, f (g a) = f a) -> alter f k (alter g k m) = alter f k m.
Proof.
  intros Hfg. rewrite alter_alter_eq. apply alter_ext. intros a _. apply Hfg.
Qed.

Lemma frame_scene_absorbs ax line props rir fs (n m : Z) s :
  frame_scene ax line props rir fs m (frame_scene ax line props rir fs n s) =
  frame_scene ax line props rir fs m s.
Proof.
  unfold frame_scene.
  set (s1 := foldl (animate_body n ax line rir fs (truediv n fs)) s props).
  assert (Heq : forall a b : Scene (F:=F),
            circles a = circles b -> lines a = lines b -> axes a = axes b -> a = b).
  { intros [] []; simpl; congruence. }
  apply Heq.
  - apply map_eq. intros p. rewrite !circles_frame_loop. unfold s1.
    rewrite circles_frame_loop. case_decide; [| done].
    by destruct (circles s !! p).
  - rewrite !lines_frame_loop. unfold s1. rewrite lines_frame_loop.
    destruct props; [done |]. by apply alter_absorbs.
  - rewrite !axes_frame_loop. unfold s1. rewrite axes_frame_loop.
    destruct props; [done |]. by apply alter_absorbs.
Qed.

Lemma animate_frame_scene (n fs : Z) ax line props rir s :
  fs <> 0 -> truediv_overflows n fs = false ->
  animate n ax line props rir fs s = Ok (frame_scene ax line props rir fs n s).
Proof. apply animate_unfold. Qed.

(** A call of [animate] wipes out what an earlier call wrote: after the
    frames [n] and [m] the store is the one that frame [m] alone gives.  In
    particular a frame drawn twice is drawn once. *)
Theorem animate_overwrites (n m fs : Z) ax line props rir s s1 :
  animate n ax line props rir fs s = Ok s1 ->
  animate m ax line props rir fs s1 = animate m ax line props rir fs s.
Proof.
  intros Hn. apply animate_Ok_inv in Hn as (_ & _ & ->).
  rewrite !animate_cases. case_bool_decide; [done |].
  destruct (truediv_overflows m fs); [done |].
  f_equal. apply (frame_scene_absorbs ax line props rir fs n m s).
Qed.

Lemma length_run_frames ax line props rir fs (ns : list Z) : forall s,
  length (run_frames ax line props rir fs ns s) = length ns.
Proof. induction ns as [| n ns IH]; intros s; simpl; [done | by rewrite IH]. Qed.

(** The pictures of a run: the [k]-th is frame [ns[k]] drawn on the store
    the run started from, whatever came before. *)
Lemma lookup_run_frames ax line props rir fs (ns : list Z) : forall s (k : nat) (n : Z),
  ns !! k = Some n ->
  run_frames ax line props rir fs ns s !! k = Some (frame_scene ax line props rir fs n s).
Proof.
  induction ns as [| n0 ns IH]; intros s k n Hk; [done |].
  destruct k as [| k]; simpl in *.
  - by injection Hk as ->.
  - rewrite (IH _ k n Hk). by rewrite frame_scene_absorbs.
Qed.

Lemma lookup_run_frames_inv ax line props rir fs (frames : Z) s (k : nat) (pic : Scene (F:=F)) :
  run_frames ax line props rir fs (arange frames) s !! k = Some pic ->
  (k < Z.to_nat frames)%nat /\ pic = frame_scene ax line props rir fs (Z.of_nat k) s.
Proof.
  intros Hk.
  assert (Hlt : (k < Z.to_nat frames)%nat).
  { apply lookup_lt_Some in Hk. by rewrite length_run_frames, length_arange in Hk. }
  split; [done |].
  rewrite (lookup_run_frames _ _ _ _ _ _ s k (Z.of_nat k)) in Hk by by apply lookup_arange.
  by injection Hk.
Qed.

End FrameOrder.


(** ** The lengths of the revealed data *)

Section FrameLengths.
Context {F : Type} `{AF : Arith F}.

Implicit Types (s : Scene (F:=F)) (p ax line : loc) (rir : list F).


End FrameLengths.

(** ** [plot_room] *)

Section PlotRoomProps.
Context {F : Type} `{AF : Arith F}.

Implicit Types (s : Scene (F:=F)) (im : SoundSource (F:=F)) (pts : list (F * F)).

Lemma for_each_app {A S} (l1 l2 : list A) (body : A -> S -> Result S) (st : S) :
  for_each (l1 ++ l2) body st = (for_each l1 body st ≫= for_each l2 body).
Proof.
  revert st. induction l1 as [| a l1 IH]; intros st; simpl; [done |].
  destruct (body a st) as [e | st']; simpl; [done | apply IH].
Qed.

(** *** Growing the store *)

Lemma grows_refl ax s : grows ax s s [] [].
Proof.
  unfold grows. split_and!; try done; constructor.
Qed.

Lemma grows_on_axes ax f s : grows ax s (on_axes f ax s) [] [].
Proof.
  unfold grows. split_and!; try done; try constructor.
  intros a Hne. simpl. by rewrite lookup_alter_ne.
Qed.

Lemma fresh_circle_at_preserved s1 s2 refs pts :
  Forall2 (fresh_circle_at s1) refs pts ->
  (forall r, r ∈ refs -> circles s2 !! r = circles s1 !! r) ->
  Forall2 (fresh_circle_at s2) refs pts.
Proof.
  induction 1 as [| r pt refs pts (c & Hc & Hrest) _ IH]; intros Hsame; constructor.
  - exists c. split; [| done]. rewrite Hsame; [done | by left].
  - apply IH. intros r' Hin. apply Hsame. by right.
Qed.

Lemma fresh_circle_at_live s refs pts r :
  Forall2 (fresh_circle_at s) refs pts -> r ∈ refs -> is_Some (circles s !! r).
Proof.
  induction 1 as [| r' pt refs pts (c & Hc & _) _ IH]; intros Hin.
  - by apply elem_of_nil in Hin.
  - apply elem_of_cons in Hin as [-> | Hin]; [eauto | by apply IH].
Qed.

Lemma grows_trans ax s s1 s2 refs1 pts1 refs2 pts2 :
  grows ax s s1 refs1 pts1 -> grows ax s1 s2 refs2 pts2 ->
  grows ax s s2 (refs1 ++ refs2) (pts1 ++ pts2).
Proof.
  intros (Hnd1 & Hfr1 & Hat1 & Hkeep1 & Hl1 & Ha1) (Hnd2 & Hfr2 & Hat2 & Hkeep2 & Hl2 & Ha2).
  assert (Hdisj : forall r, r ∈ refs1 -> r ∉ refs2).
  { intros r Hin1 Hin2.
    destruct (fresh_circle_at_live _ _ _ _ Hat1 Hin1) as [c Hc].
    pose proof (proj1 (Forall_forall _ _) Hfr2 r Hin2) as Hnone. simpl in Hnone.
    congruence. }
  unfold grows. split_and!.
  - apply NoDup_app. split_and!; [done | done | done].
  - apply Forall_app. split; [done |].
    apply Forall_forall. intros r Hin2.
    rewrite <- Hkeep1; [by apply (proj1 (Forall_forall _ _) Hfr2) |].
    intros Hin1. by apply (Hdisj r).
  - apply Forall2_app; [| done].
    eapply fresh_circle_at_preserved; [done |].
    intros r Hin1. apply Hkeep2. by apply Hdisj.
  - intros r Hnot. rewrite Hkeep2, Hkeep1; [done | |];
      intros Hin; apply Hnot, elem_of_app; auto.
  - congruence.
  - intros a Hne. by rewrite Ha2, Ha1.
Qed.

Lemma add_circle_grows ax color props s pt :
  exists r s', add_circle ax color (props, s) pt = (props ++ [r], s') /\
               grows ax s s' [r] [pt].
Proof.
  unfold add_circle, new_circle. simpl.
  set (r := fresh (dom (circles s))).
  assert (Hfresh : circles s !! r = None).
  { apply not_elem_of_dom. apply is_fresh. }
  eexists r, _. split; [reflexivity |].
  unfold grows. split_and!.
  - apply NoDup_singleton.
  - by repeat constructor.
  - repeat constructor. eexists. simpl. rewrite lookup_insert_eq. done.
  - intros r' Hnot. simpl. rewrite lookup_insert_ne; [done |].
    intros ->. apply Hnot. by left.
  - done.
  - intros a Hne. simpl. by rewrite lookup_alter_ne.
Qed.

Lemma add_circles_grows ax color pts : forall props s,
  exists refs s', foldl (add_circle ax color) (props, s) pts = (props ++ refs, s') /\
                  grows ax s s' refs pts.
Proof.
  induction pts as [| pt pts IH]; intros props s; simpl.
  - exists [], s. rewrite app_nil_r. split; [done | apply grows_refl].
  - destruct (add_circle_grows ax color props s pt) as (r & s1 & -> & Hg1).
    destruct (IH (props ++ [r]) s1) as (refs & s2 & -> & Hg2).
    exists (r :: refs), s2. split.
    + by rewrite <- app_assoc.
    + apply (grows_trans _ _ _ _ [r] [pt] refs pts Hg1 Hg2).
Qed.

(** *** The inner loop visits the pairs [(x[i], y[i])] in order *)

Lemma add_propagation_nat ax color (x y : list F) (j : nat) (xj yj : F) st :
  x !! j = Some xj -> y !! j = Some yj ->
  add_propagation ax x y color (Z.of_nat j) st = Ok (add_circle ax color st (xj, yj)).
Proof.
  intros Hxj Hyj. unfold add_propagation.
  by rewrite (py_index_nat x j xj Hxj), (py_index_nat y j yj Hyj).
Qed.

Lemma inner_loop_from ax color (x y : list F) (m : nat) : forall (j : nat) st,
  (j + m <= length x)%nat -> length x = length y ->
  for_each (Z.of_nat <$> seq j m) (add_propagation ax x y color) st =
  Ok (foldl (add_circle ax color) st (take m (drop j (zip x y)))).
Proof.
  induction m as [| m IH]; intros j st Hj Hlen; simpl.
  - reflexivity.
  - destruct (lookup_lt_is_Some_2 x j) as [xj Hxj]; [lia |].
    destruct (lookup_lt_is_Some_2 y j) as [yj Hyj]; [lia |].
    rewrite (add_propagation_nat _ _ _ _ _ _ _ _ Hxj Hyj). simpl.
    rewrite IH by lia.
    assert (Hz : zip x y !! j = Some (xj, yj)).
    { rewrite lookup_zip_with, Hxj. simpl. by rewrite Hyj. }
    by rewrite (drop_S _ _ _ Hz).
Qed.

Lemma inner_loop ax color (x y : list F) st :
  length x = length y ->
  for_each (py_range (Z.of_nat (length x))) (add_propagation ax x y color) st =
  Ok (foldl (add_circle ax color) st (zip x y)).
Proof.
  intros Hlen. unfold py_range, arange. rewrite Nat2Z.id.
  rewrite inner_loop_from by (done || lia).
  rewrite drop_0, take_ge; [done |].
  rewrite length_zip_with. lia.
Qed.

(** *** Boolean masks and the triples of [image_sources] *)

Lemma length_mask_select {A} (l : list A) (mask : list bool) :
  length l = length mask ->
  length (mask_select l mask) = length (filter (fun b => b = true) mask).
Proof.
  revert mask. induction l as [| a l IH]; intros [| b mask] Hlen; try done.
  simpl in Hlen. destruct b.
  - rewrite filter_cons_True by done. simpl. f_equal. apply IH. lia.
  - rewrite filter_cons_False by done. simpl. apply IH. lia.
Qed.

Lemma mask_select_order (order : Z) (os : list Z) : forall (xs ys : list F),
  length xs = length os -> length ys = length os ->
  zip (mask_select xs ((fun o => bool_decide (o = order)) <$> os))
      (mask_select ys ((fun o => bool_decide (o = order)) <$> os)) =
  fst <$> filter (fun t : F * F * Z => t.2 = order) (zip (zip xs ys) os).
Proof.
  induction os as [| o os IH]; intros [| x xs] [| y ys] Hx Hy; try done.
  simpl in Hx, Hy.
  change (zip (zip (x :: xs) (y :: ys)) (o :: os)) with ((x, y, o) :: zip (zip xs ys) os).
  rewrite fmap_cons. cbn [mask_select].
  destruct (decide (o = order)) as [Heq | Hne].
  - rewrite bool_decide_eq_true_2 by done. rewrite filter_cons_True by done.
    simpl. f_equal. apply IH; lia.
  - rewrite bool_decide_eq_false_2 by done. rewrite filter_cons_False by done.
    apply IH; lia.
Qed.

Lemma select_images_consistent im (order : Z) :
  consistent im ->
  exists x y, select_images im (order_mask im order) = Ok (x, y) /\
    length x = length y /\
    mask_sum (order_mask im order) = Z.of_nat (length x) /\
    zip x y = positions_of_order im order.
Proof.
  intros (xs & ys & Him & Hx & Hy).
  assert (Hmask : length (order_mask im order) = length (orders im)).
  { unfold order_mask. apply length_fmap. }
  exists (mask_select xs (order_mask im order)), (mask_select ys (order_mask im order)).
  split_and!.
  - unfold select_images. rewrite Him.
    rewrite bool_decide_eq_true_2; [done |].
    repeat constructor; congruence.
  - rewrite !length_mask_select; congruence.
  - unfold mask_sum. rewrite length_mask_select; congruence.
  - unfold positions_of_order, image_sources. rewrite Him.
    by apply mask_select_order.
Qed.

(** *** The loop over the orders *)

Lemma plot_order_grows ax im (order : Z) props s :
  consistent im ->
  exists refs s', plot_order ax im order (props, s) = Ok (props ++ refs, s') /\
                  grows ax s s' refs (positions_of_order im order).
Proof.
  intros Hc. destruct (select_images_consistent im order Hc) as (x & y & Hsel & Hlen & Hsum & Hzip).
  unfold plot_order. rewrite Hsel. simpl. rewrite Hsum, inner_loop by done.
  rewrite Hzip.
  destruct (add_circles_grows ax (next_color ax s) (positions_of_order im order) props
              (on_axes (fun a => axes_advance_cycle
                                   (axes_add (Scatter x y (next_color ax s)) a)) ax s))
    as (refs & s' & -> & Hg).
  exists refs, s'. split; [done |].
  apply (grows_trans ax s _ s' [] [] refs _ (grows_on_axes ax _ s) Hg).
Qed.

Lemma plot_orders_grows ax im (os : list Z) :
  consistent im -> forall props s,
  exists refs s', for_each os (plot_order ax im) (props, s) = Ok (props ++ refs, s') /\
                  grows ax s s' refs (concat (positions_of_order im <$> os)).
Proof.
  intros Hc. induction os as [| o os IH]; intros props s; simpl.
  - exists [], s. rewrite app_nil_r. split; [done | apply grows_refl].
  - destruct (plot_order_grows ax im o props s Hc) as (refs1 & s1 & -> & Hg1). simpl.
    destruct (IH (props ++ refs1) s1) as (refs2 & s2 & -> & Hg2).
    exists (refs1 ++ refs2), s2. split; [by rewrite <- app_assoc |].
    by apply (grows_trans ax s s1 s2).
Qed.

(** The loop runs no round when [max_order] is negative, so nothing is
    asked of the image sources then. *)
Lemma plot_image_sources_grows ax im (max_order : Z) s :
  (0 <= max_order -> consistent im) ->
  exists refs s', plot_image_sources ax im max_order s = Ok (refs, s') /\
                  grows ax s s' refs (expected_positions im max_order).
Proof.
  intros Hc. unfold plot_image_sources, expected_positions, py_range.
  destruct (decide (0 <= max_order)) as [Hm | Hm].
  - apply (plot_orders_grows ax im _ (Hc Hm) [] s).
  - rewrite arange_nonpos by lia. exists [], s. split; [done | apply grows_refl].
Qed.

(** *** Each image source in range is drawn exactly once *)

Lemma filter_split {A} (P Q R : A -> Prop) `{!forall x, Decision (P x)}
    `{!forall x, Decision (Q x)} `{!forall x, Decision (R x)} (l : list A) :
  (forall x, P x <-> Q x \/ R x) -> (forall x, Q x -> R x -> False) ->
  filter P l ≡ₚ filter Q l ++ filter R l.
Proof.
  intros Hiff Hdisj. induction l as [| a l IH]; [done |].
  destruct (decide (Q a)) as [Hq | Hq]; destruct (decide (R a)) as [Hr | Hr].
  - destruct (Hdisj a Hq Hr).
  - rewrite (filter_cons_True P), (filter_cons_True Q), (filter_cons_False R);
      [| done | done | apply Hiff; auto]. simpl. by rewrite IH.
  - rewrite (filter_cons_True P), (filter_cons_False Q), (filter_cons_True R);
      [| done | done | apply Hiff; auto].
    rewrite IH. apply Permutation_middle.
  - rewrite (filter_cons_False P), (filter_cons_False Q), (filter_cons_False R);
      [done | done | done | rewrite Hiff; tauto].
Qed.

Lemma filter_none {A} (P : A -> Prop) `{!forall x, Decision (P x)} (l : list A) :
  (forall x, ~ P x) -> filter P l = [].
Proof.
  intros Hno. induction l as [| a l IH]; [done |].
  by rewrite filter_cons_False.
Qed.

Lemma positions_up_to im (m : nat) :
  concat (positions_of_order im <$> arange (Z.of_nat m)) ≡ₚ
  fst <$> filter (fun t : F * F * Z => 0 <= t.2 < Z.of_nat m) (image_sources im).
Proof.
  induction m as [| m IH].
  - simpl. rewrite filter_none; [done | intros; lia].
  - replace (Z.of_nat (S m)) with (Z.of_nat m + 1) by lia.
    rewrite arange_succ by lia. rewrite fmap_app, concat_app. simpl.
    rewrite app_nil_r, IH. unfold positions_of_order. rewrite <- fmap_app.
    apply fmap_Permutation. symmetry. apply filter_split; intros; lia.
Qed.

Lemma expected_positions_perm im (max_order : Z) :
  expected_positions im max_order ≡ₚ fst <$> filter (in_range max_order) (image_sources im).
Proof.
  unfold expected_positions, in_range.
  destruct (decide (0 <= max_order)) as [Hm | Hm].
  - replace (max_order + 1) with (Z.of_nat (Z.to_nat (max_order + 1))) by lia.
    rewrite positions_up_to. apply fmap_Permutation.
    rewrite (list_filter_iff (fun t : F * F * Z => 0 <= t.2 < Z.of_nat (Z.to_nat (max_order + 1)))
               (fun t => 0 <= t.2 <= max_order)); [done | intros; lia].
  - rewrite arange_nonpos by lia. simpl.
    rewrite filter_none; [done | intros; lia].
Qed.

End PlotRoomProps.

Section PlotRoomTheorems.
Context {F : Type} `{AF : Arith F}.

Implicit Types (s : Scene (F:=F)) (im : SoundSource (F:=F)) (pts : list (F * F)).

Lemma py_index_lt {A} (l : list A) (i : nat) :
  (i < length l)%nat -> exists a, py_index l (Z.of_nat i) = Ok a.
Proof.
  intros Hi. destruct (lookup_lt_is_Some_2 l i Hi) as [a Ha].
  exists a. by apply py_index_nat.
Qed.

(** The first three blocks touch the first axes only. *)
Lemma plot_walls_grows ax walls s :
  succeeds (room_polygon walls) ->
  exists s', plot_walls ax walls s = Ok s' /\ grows ax s s' [] [].
Proof.
  intros [polygon Hp]. unfold plot_walls. rewrite Hp. simpl.
  eexists. split; [reflexivity | apply grows_on_axes].
Qed.

Lemma plot_microphones_grows ax (mic_pos : list F) s :
  (2 <= length mic_pos)%nat ->
  exists s', plot_microphones ax mic_pos s = Ok s' /\ grows ax s s' [] [].
Proof.
  intros Hlen. unfold plot_microphones.
  destruct (py_index_lt mic_pos 0) as [mx Hmx]; [lia |].
  destruct (py_index_lt mic_pos 1) as [my Hmy]; [lia |].
  change (Z.of_nat 0) with 0 in Hmx. change (Z.of_nat 1) with 1 in Hmy.
  rewrite Hmx. simpl. rewrite Hmy. simpl.
  eexists. split; [reflexivity | apply grows_on_axes].
Qed.

(** The state in which the loop over the orders ends, and the rest of
    [plot_room] as a function of it. *)
Lemma plot_room_unfold axs walls (mic_pos : list F) im max_order fs (init_rir : list F) s :
  plot_room_ready walls mic_pos im max_order ->
  exists props s1,
    grows axs.1 s s1 props (expected_positions im max_order) /\
    plot_room axs walls mic_pos im max_order fs init_rir s =
    Ok ((plot axs.2 [] [] (plot_initial_rir axs.2 fs init_rir (set_labels axs s1))).1,
        props,
        (plot axs.2 [] [] (plot_initial_rir axs.2 fs init_rir (set_labels axs s1))).2).
Proof.
  intros (Hwalls & Hmic & Him). unfold plot_room.
  pose proof (grows_on_axes axs.1 (axes_set_aspect "equal") s) as Hg0.
  destruct (plot_walls_grows axs.1 walls (on_axes (axes_set_aspect "equal") axs.1 s) Hwalls)
    as (sa & -> & Hg1). simpl.
  destruct (plot_microphones_grows axs.1 mic_pos sa Hmic) as (sb & -> & Hg2). simpl.
  destruct (plot_image_sources_grows axs.1 im max_order sb Him) as (props & s1 & -> & Hg3).
  simpl. exists props, s1. split.
  - pose proof (grows_trans _ _ _ _ _ _ _ _ Hg0 Hg1) as Hg01.
    pose proof (grows_trans _ _ _ _ _ _ _ _ Hg01 Hg2) as Hg02.
    apply (grows_trans _ _ _ _ _ _ _ _ Hg02 Hg3).
  - by destruct (plot axs.2 [] [] (plot_initial_rir axs.2 fs init_rir (set_labels axs s1))).
Qed.

Lemma circles_plot_initial_rir ax fs (init_rir : list F) s :
  circles (plot_initial_rir ax fs init_rir s) = circles s.
Proof. unfold plot_initial_rir. by case_bool_decide. Qed.

Lemma circles_after_loop axs fs (init_rir : list F) s :
  circles (plot axs.2 [] [] (plot_initial_rir axs.2 fs init_rir (set_labels axs s))).2 =
  circles s.
Proof. simpl. by rewrite circles_plot_initial_rir. Qed.

Lemma length_filter_orders (max_order : Z) (os : list Z) : forall (ps : list (F * F)),
  length ps = length os ->
  Forall (fun o => 0 <= o) os ->
  length (filter (in_range max_order) (zip ps os)) =
  length (filter (fun o => o <= max_order) os).
Proof.
  induction os as [| o os IH]; intros [| pt ps] Hlen Hpos; try done.
  simpl in Hlen. apply Forall_cons in Hpos as [Ho Hpos].
  change (zip (pt :: ps) (o :: os)) with ((pt, o) :: zip ps os).
  destruct (decide (o <= max_order)) as [Hle | Hgt].
  - rewrite (filter_cons_True (in_range max_order)) by (unfold in_range; simpl; lia).
    rewrite (filter_cons_True (fun o => o <= max_order)) by done.
    simpl. f_equal. apply IH; [lia | done].
  - rewrite (filter_cons_False (in_range max_order)) by (unfold in_range; simpl; lia).
    rewrite (filter_cons_False (fun o => o <= max_order)) by done.
    apply IH; [lia | done].
Qed.

Lemma count_in_range im (max_order : Z) :
  consistent im -> Forall (fun o => 0 <= o) (orders im) ->
  length (filter (in_range max_order) (image_sources im)) =
  length (filter (fun o => o <= max_order) (orders im)).
Proof.
  intros (xs & ys & Him & Hx & Hy) Hpos. unfold image_sources. rewrite Him.
  apply length_filter_orders; [| done].
  rewrite length_zip_with. lia.
Qed.

(** C6: for [max_order >= 0] and consistent image sources, [plot_room]
    returns as [propagations] one new circle per image source whose order
    lies in [0 .. max_order]: the circles are distinct new objects, each
    of radius 0 and centred at its image source, in the order of creation
    (order 0 first); their number is the number of image sources in that
    range, which is the number of those with order at most [max_order]
    when no order is negative; no other circle is created or changed. *)
Theorem plot_room_propagations axs walls (mic_pos : list F) im max_order fs
    (init_rir : list F) s :
  0 <= max_order -> consistent im ->
  succeeds (room_polygon walls) -> (2 <= length mic_pos)%nat ->
  exists line props s',
    plot_room axs walls mic_pos im max_order fs init_rir s = Ok (line, props, s') /\
    NoDup props /\
    Forall (fun r => circles s !! r = None) props /\
    Forall2 (fresh_circle_at s') props (expected_positions im max_order) /\
    expected_positions im max_order ≡ₚ fst <$> filter (in_range max_order) (image_sources im) /\
    length props = length (filter (in_range max_order) (image_sources im)) /\
    (Forall (fun o => 0 <= o) (orders im) ->
       length props = length (filter (fun o => o <= max_order) (orders im))) /\
    (forall r, r ∉ props -> circles s' !! r = circles s !! r).
Proof.
  intros Hm Hc Hwalls Hmic.
  destruct (plot_room_unfold axs walls mic_pos im max_order fs init_rir s)
    as (props & s1 & (Hnd & Hfr & Hat & Hkeep & _ & _) & Hrun); [by split_and! |].
  eexists _, props, _. split; [exact Hrun |].
  assert (Hlen : length props = length (filter (in_range max_order) (image_sources im))).
  { rewrite (Forall2_length _ _ _ Hat), (expected_positions_perm im max_order).
    apply length_fmap. }
  split_and!; try done.
  - eapply fresh_circle_at_preserved; [exact Hat |].
    intros r _. by rewrite circles_after_loop.
  - apply expected_positions_perm.
  - intros Hpos. rewrite Hlen. by apply count_in_range.
  - intros r Hnot. rewrite circles_after_loop. by apply Hkeep.
Qed.

Lemma lookup_set_labels axs s (a : Axes (F:=F)) :
  axs.1 <> axs.2 -> axes s !! axs.2 = Some a ->
  exists a', axes (set_labels axs s) !! axs.2 = Some a' /\
             ax_artists a' = ax_artists a /\ ax_cycle a' = ax_cycle a.
Proof.
  intros Hne Ha. unfold set_labels, on_axes. simpl.
  rewrite !lookup_alter_eq. rewrite !lookup_alter_ne by done. rewrite Ha. simpl.
  eexists. split; [reflexivity | done].
Qed.

Lemma lines_set_labels axs s : lines (set_labels axs s) = lines s.
Proof. reflexivity. Qed.

Lemma plot_spec ax (xs ys : list F) s (a : Axes (F:=F)) :
  axes s !! ax = Some a ->
  exists r, (plot ax xs ys s).1 = r /\
    lines s !! r = None /\
    lines (plot ax xs ys s).2 = <[r := mkLine2D xs ys (CycleColor (ax_cycle a))]> (lines s) /\
    axes (plot ax xs ys s).2 !! ax = Some (axes_advance_cycle (axes_add (Line r) a)).
Proof.
  intros Ha. exists (fresh (dom (lines s))). unfold plot, next_color. simpl.
  rewrite Ha. simpl. split_and!; try done.
  - apply not_elem_of_dom, is_fresh.
  - by rewrite lookup_alter_eq, Ha.
Qed.

(** The lines that [plot_room] adds to the second axes and to the store. *)
Lemma plot_room_second_axes axs walls (mic_pos : list F) im max_order fs
    (init_rir : list F) s (a : Axes (F:=F)) :
  plot_room_ready walls mic_pos im max_order ->
  axs.1 <> axs.2 -> axes s !! axs.2 = Some a ->
  exists line props s' a',
    plot_room axs walls mic_pos im max_order fs init_rir s = Ok (line, props, s') /\
    axes s' !! axs.2 = Some a' /\
    lines s !! line = None /\
    (init_rir = [] ->
       ax_artists a' = ax_artists a ++ [Line line] /\
       lines s' = <[line := mkLine2D [] [] (CycleColor (ax_cycle a))]> (lines s)) /\
    (init_rir <> [] ->
       exists ref, ref <> line /\ lines s !! ref = None /\
         ax_artists a' = ax_artists a ++ [Line ref; Line line] /\
         lines s' =
           <[line := mkLine2D [] [] (CycleColor (S (ax_cycle a)))]>
             (<[ref := mkLine2D (time_axis (Z.of_nat (length init_rir)) fs) init_rir
                                (CycleColor (ax_cycle a))]> (lines s))).
Proof.
  intros Hready Hne Ha.
  destruct (plot_room_unfold axs walls mic_pos im max_order fs init_rir s Hready)
    as (props & s1 & (_ & _ & _ & _ & Hl1 & Ha1) & Hrun).
  rewrite Hrun. clear Hrun.
  assert (Ha1' : axes s1 !! axs.2 = Some a) by (rewrite Ha1; [done | congruence]).
  destruct (lookup_set_labels axs s1 a Hne Ha1') as (a2 & Ha2 & Hart2 & Hcyc2).
  pose proof (lines_set_labels axs s1) as Hl2. rewrite Hl1 in Hl2.
  set (s2 := set_labels axs s1) in *.
  destruct init_rir as [| v init_rir].
  - (* no reference waveform *)
    unfold plot_initial_rir. rewrite bool_decide_eq_false_2 by (simpl; lia).
    destruct (plot_spec axs.2 [] [] s2 a2 Ha2) as (line & Hline & Hfresh & Hlines & Haxes).
    eexists _, props, _, _. split; [reflexivity |]. rewrite Hline.
    split; [exact Haxes |]. split; [by rewrite <- Hl2 |]. split; [| done].
    intros _. split; [simpl; by rewrite Hart2 |].
    by rewrite Hlines, Hcyc2, Hl2.
  - (* the reference waveform comes first *)
    unfold plot_initial_rir. rewrite bool_decide_eq_true_2 by (simpl; lia).
    destruct (plot_spec axs.2 (time_axis (Z.of_nat (length (v :: init_rir))) fs)
                (v :: init_rir) s2 a2 Ha2) as (ref & Href & Hfresh3 & Hlines3 & Haxes3).
    set (s3 := (plot axs.2 (time_axis (Z.of_nat (length (v :: init_rir))) fs)
                     (v :: init_rir) s2).2) in *.
    destruct (plot_spec axs.2 [] [] s3 _ Haxes3) as (line & Hline & Hfresh & Hlines & Haxes).
    eexists _, props, _, _. split; [reflexivity |]. rewrite Hline.
    split; [exact Haxes |].
    assert (Hneq : ref <> line).
    { intros ->. rewrite Hlines3, lookup_insert_eq in Hfresh. discriminate. }
    split.
    { rewrite Hlines3, lookup_insert_ne in Hfresh by done. by rewrite <- Hl2. }
    split; [done |]. intros _. exists ref. split_and!.
    + done.
    + by rewrite <- Hl2.
    + simpl. rewrite Hart2, <- app_assoc. done.
    + rewrite Hlines, Hlines3. cbn [ax_cycle axes_advance_cycle axes_add].
      by rewrite Hcyc2, Hl2.
Qed.

Lemma length_time_axis (n fs : Z) : length (time_axis (F:=F) n fs) = Z.to_nat n.
Proof. unfold time_axis. by rewrite length_fmap, length_arange. Qed.

Lemma lookup_time_axis (n fs : Z) (k : nat) :
  (k < Z.to_nat n)%nat ->
  time_axis (F:=F) n fs !! k = Some (fdiv (of_int (Z.of_nat k)) (of_int fs)).
Proof. intros Hk. unfold time_axis. by rewrite list_lookup_fmap, lookup_arange. Qed.

(** C7: [plot_room] draws the reference waveform on the second axes
    exactly when [init_rir] is not empty: the line [ref] holds the samples
    of [init_rir] against [init_rir.size] times, the [k]-th of them
    [k / fs]; with an empty [init_rir] the second axes only gains the
    reveal line, which starts empty.  In both cases these are the only new
    lines of the store. *)
Theorem plot_room_reference_waveform axs walls (mic_pos : list F) im max_order fs
    (init_rir : list F) s (a : Axes (F:=F)) :
  plot_room_ready walls mic_pos im max_order ->
  axs.1 <> axs.2 -> axes s !! axs.2 = Some a ->
  exists line props s' a',
    plot_room axs walls mic_pos im max_order fs init_rir s = Ok (line, props, s') /\
    axes s' !! axs.2 = Some a' /\
    lines s !! line = None /\
    (init_rir = [] ->
       ax_artists a' = ax_artists a ++ [Line line] /\
       lines s' = <[line := mkLine2D [] [] (CycleColor (ax_cycle a))]> (lines s)) /\
    (init_rir <> [] ->
       exists ref (times : list F), ref <> line /\ lines s !! ref = None /\
         ax_artists a' = ax_artists a ++ [Line ref; Line line] /\
         lines s' =
           <[line := mkLine2D [] [] (CycleColor (S (ax_cycle a)))]>
             (<[ref := mkLine2D times init_rir (CycleColor (ax_cycle a))]> (lines s)) /\
         length times = length init_rir /\
         forall k, (k < length init_rir)%nat ->
           times !! k = Some (fdiv (of_int (Z.of_nat k)) (of_int fs))).
Proof.
  intros Hready Hne Ha.
  destruct (plot_room_second_axes axs walls mic_pos im max_order fs init_rir s a Hready Hne Ha)
    as (line & props & s' & a' & Hrun & Ha' & Hfresh & Hempty & Hfull).
  exists line, props, s', a'. split_and!; try done.
  intros Hinit. destruct (Hfull Hinit) as (ref & Hneq & Hnew & Hart & Hlines).
  exists ref, (time_axis (Z.of_nat (length init_rir)) fs). split_and!; try done.
  - by rewrite length_time_axis, Nat2Z.id.
  - intros k Hk. apply lookup_time_axis. lia.
Qed.

End PlotRoomTheorems.

Lemma demo_room_polygon : succeeds (room_polygon (room_walls Demo.room)).
Proof. eexists. vm_compute. reflexivity. Qed.

Lemma demo_source_consistent : consistent Demo.source.
Proof. eexists _, _. split_and!; reflexivity. Qed.

Lemma plot_room_propagations_witness :
  exists line props s',
    plot_room (0%nat, 1%nat) (room_walls Demo.room) [of_dec 6316 3; of_dec 4123 3]
              Demo.source 1 8000 [] Demo.scene3 = Ok (line, props, s') /\
    NoDup props /\
    Forall (fun r => circles Demo.scene3 !! r = None) props /\
    Forall2 (fresh_circle_at s') props (expected_positions Demo.source 1) /\
    expected_positions Demo.source 1 ≡ₚ fst <$> filter (in_range 1) (image_sources Demo.source) /\
    length props = length (filter (in_range 1) (image_sources Demo.source)) /\
    (Forall (fun o => 0 <= o) (orders Demo.source) ->
       length props = length (filter (fun o => o <= 1) (orders Demo.source))) /\
    (forall r, r ∉ props -> circles s' !! r = circles Demo.scene3 !! r).
Proof.
  apply (plot_room_propagations (F:=float) (0%nat, 1%nat) (room_walls Demo.room)
           [of_dec 6316 3; of_dec 4123 3] Demo.source 1 8000 [] Demo.scene3).
  - lia.
  - apply demo_source_consistent.
  - apply demo_room_polygon.
  - simpl. lia.
Defined.

Lemma plot_room_reference_waveform_witness :
  exists line props s' a',
    plot_room (0%nat, 1%nat) (room_walls Demo.room) [of_dec 6316 3; of_dec 3754 3]
              Demo.source 1 8000 Demo.rir Demo.scene3 = Ok (line, props, s') /\
    axes s' !! 1%nat = Some a' /\
    lines Demo.scene3 !! line = None /\
    (Demo.rir = [] ->
       ax_artists a' = ax_artists empty_axes ++ [Line line] /\
       lines s' = <[line := mkLine2D [] [] (CycleColor (ax_cycle (F:=float) empty_axes))]>
                    (lines Demo.scene3)) /\
    (Demo.rir <> [] ->
       exists ref (times : list float), ref <> line /\ lines Demo.scene3 !! ref = None /\
         ax_artists a' = ax_artists empty_axes ++ [Line ref; Line line] /\
         lines s' =
           <[line := mkLine2D [] [] (CycleColor (S (ax_cycle (F:=float) empty_axes)))]>
             (<[ref := mkLine2D times Demo.rir (CycleColor (ax_cycle (F:=float) empty_axes))]>
                (lines Demo.scene3)) /\
         length times = length Demo.rir /\
         forall k, (k < length Demo.rir)%nat ->
           times !! k = Some (fdiv (of_int (Z.of_nat k)) (of_int 8000))).
Proof.
  apply (plot_room_reference_waveform (F:=float) (0%nat, 1%nat) (room_walls Demo.room)
           [of_dec 6316 3; of_dec 3754 3] Demo.source 1 8000 Demo.rir Demo.scene3 empty_axes).
  - split_and!; [apply demo_room_polygon | simpl; lia | intros _; apply demo_source_consistent].
  - simpl. lia.
  - vm_compute. reflexivity.
Defined.

(** ** When [plot_room] runs to its end *)

Section PlotRoomRuns.
Context {F : Type} `{AF : Arith F}.

Implicit Types (s : Scene (F:=F)) (im : SoundSource (F:=F)) (pts : list (F * F)).

Lemma py_index_Ok_nonneg {A} (l : list A) (i : Z) (a : A) :
  0 <= i -> py_index l i = Ok a -> (Z.to_nat i < length l)%nat.
Proof.
  intros Hi. unfold py_index. case_bool_decide as Hin; [intros _; lia |].
  case_bool_decide as Hneg; [lia | done].
Qed.

Lemma arange_first (n : Z) : 0 < n -> exists rest, arange n = 0 :: rest.
Proof.
  intros Hn. unfold arange.
  replace (Z.to_nat n) with (S (Z.to_nat (n - 1))) by lia.
  simpl. eauto.
Qed.

Lemma select_images_Ok im (indices : list bool) (x y : list F) :
  length indices = length (orders im) ->
  select_images im indices = Ok (x, y) -> consistent im.
Proof.
  intros Hlen. unfold select_images. case_bool_decide as Hrows; [| done].
  destruct (images im) as [| xs [| ys [| zs rest]]] eqn:Him; try done.
  intros _. exists xs, ys. split; [done |].
  apply Forall_cons in Hrows as [Hx Hrows]. apply Forall_cons in Hrows as [Hy _].
  split; congruence.
Qed.

Lemma plot_room_Ok_ready axs walls (mic_pos : list F) im max_order fs (init_rir : list F) s :
  succeeds (plot_room axs walls mic_pos im max_order fs init_rir s) ->
  plot_room_ready walls mic_pos im max_order.
Proof.
  intros [[[line props] s'] Hrun]. unfold plot_room in Hrun.
  apply bind_inv in Hrun as (sa & Hwalls & Hrun).
  apply bind_inv in Hrun as (sb & Hmic & Hrun).
  apply bind_inv in Hrun as ([props1 s1] & Hloop & _).
  split_and!.
  - unfold plot_walls in Hwalls. apply bind_inv in Hwalls as (polygon & Hp & _).
    by exists polygon.
  - unfold plot_microphones in Hmic.
    apply bind_inv in Hmic as (mx & _ & Hmic). apply bind_inv in Hmic as (my & Hmy & _).
    apply py_index_Ok_nonneg in Hmy; lia.
  - intros Hm. unfold plot_image_sources, py_range in Hloop.
    destruct (arange_first (max_order + 1)) as [rest Hfirst]; [lia |].
    rewrite Hfirst in Hloop. clear Hfirst. cbn [for_each] in Hloop. apply bind_inv in Hloop as (st & Hfirst & _).
    unfold plot_order in Hfirst. apply bind_inv in Hfirst as ([x y] & Hsel & _).
    apply (select_images_Ok im (order_mask im 0) x y); [| done].
    unfold order_mask. apply length_fmap.
Qed.

(** The walls that make a room polygon. *)
Lemma wall_ok_vertex (wl : Wall (F:=F)) :
  wall_ok wl <-> exists x y, first_corner wl = Ok [x; y].
Proof.
  unfold wall_ok, first_corner. split.
  - intros (x & xs & y & ys & ->). by exists x, y.
  - intros (x & y & Hc).
    destruct (corners wl) as [| r1 [| r2 [| r3 rest]]] eqn:Hw; simpl in Hc.
    + done.
    + destruct r1; simpl in Hc; done.
    + destruct r1 as [| x1 xs]; [done |]. destruct r2 as [| y1 ys]; [done |].
      simpl in Hc. injection Hc as <- <-. by exists x1, xs, y1, ys.
    + destruct r1 as [| x1 xs]; [done |]. destruct r2 as [| y1 ys]; [done |].
      destruct r3 as [| z1 zs]; [done |]. simpl in Hc.
      destruct (mapM (fun row : list F => row !! 0%nat) rest); simpl in Hc; done.
Qed.

Lemma polygon_walls_ok (ws : list (Wall (F:=F))) : forall (cs : list (list F)) (vs : list (F * F)),
  first_corners ws = Ok cs -> vertices cs = Ok vs ->
  Forall wall_ok ws /\ length vs = length ws.
Proof.
  induction ws as [| wl ws IH]; intros cs vs Hcs Hvs; simpl in Hcs.
  - injection Hcs as <-. simpl in Hvs. injection Hvs as <-. by split.
  - apply bind_inv in Hcs as (c & Hc & Hcs). apply bind_inv in Hcs as (cs' & Hcs' & Hcs).
    injection Hcs as <-.
    destruct c as [| x [| y [| z c]]]; simpl in Hvs; try done.
    apply bind_inv in Hvs as (vs' & Hvs' & Hvs). injection Hvs as <-.
    destruct (IH cs' vs' Hcs' Hvs') as [Hall Hlen]. split.
    + constructor; [| done]. apply wall_ok_vertex. eauto.
    + simpl. by rewrite Hlen.
Qed.

Lemma walls_ok_polygon (ws : list (Wall (F:=F))) :
  Forall wall_ok ws ->
  exists (cs : list (list F)) (vs : list (F * F)),
    first_corners ws = Ok cs /\ vertices cs = Ok vs /\ length vs = length ws.
Proof.
  induction 1 as [| wl ws Hw _ (cs & vs & Hcs & Hvs & Hlen)].
  - by exists [], [].
  - apply wall_ok_vertex in Hw as (x & y & Hc).
    exists ([x; y] :: cs), ((x, y) :: vs). simpl. rewrite Hc. simpl. rewrite Hcs. simpl.
    rewrite Hvs. simpl. by rewrite Hlen.
Qed.

Lemma room_polygon_iff (ws : list (Wall (F:=F))) :
  succeeds (room_polygon ws) <-> ws <> [] /\ Forall wall_ok ws.
Proof.
  unfold room_polygon. split.
  - intros [vs Hrun]. apply bind_inv in Hrun as (cs & Hcs & Hrun).
    apply bind_inv in Hrun as (vs' & Hvs & Hrun).
    destruct (polygon_walls_ok ws cs vs' Hcs Hvs) as [Hall Hlen].
    split; [| done]. intros ->. by destruct vs'.
  - intros [Hne Hall]. destruct (walls_ok_polygon ws Hall) as (cs & vs & -> & Hvs & Hlen).
    simpl. rewrite Hvs. simpl.
    destruct vs as [| v vs]; [by destruct ws | by eexists].
Qed.

(** [plot_room] returns normally exactly when there is a wall and every
    wall has two rows of corners with a first column, the microphone
    position has two coordinates and, for [max_order >= 0], the images are
    two rows as long as [orders]; otherwise it raises.  The sampling rate,
    the reference waveform and the store play no part. *)
Theorem plot_room_runs_iff axs walls (mic_pos : list F) im max_order fs (init_rir : list F) s :
  succeeds (plot_room axs walls mic_pos im max_order fs init_rir s) <->
  (walls <> [] /\ Forall wall_ok walls) /\ (2 <= length mic_pos)%nat /\
  (0 <= max_order -> consistent im).
Proof.
  rewrite <- room_polygon_iff. split.
  - apply plot_room_Ok_ready.
  - intros Hready.
    destruct (plot_room_unfold axs walls mic_pos im max_order fs init_rir s Hready)
      as (props & s1 & _ & ->).
    by eexists.
Qed.

(** With a negative [max_order] the loop over the orders runs no round:
    [plot_room] creates no circle and returns an empty list, whatever the
    image sources are, also when their arrays do not fit together. *)
Theorem plot_room_negative_order axs walls (mic_pos : list F) im max_order fs
    (init_rir : list F) s :
  max_order < 0 ->
  succeeds (room_polygon walls) -> (2 <= length mic_pos)%nat ->
  exists line s', plot_room axs walls mic_pos im max_order fs init_rir s = Ok (line, [], s') /\
                  circles s' = circles s.
Proof.
  intros Hm Hwalls Hmic.
  destruct (plot_room_unfold axs walls mic_pos im max_order fs init_rir s)
    as (props & s1 & (_ & _ & Hat & Hkeep & _) & Heq); [split_and!; [done | done | lia] |].
  unfold expected_positions in Hat. rewrite arange_nonpos in Hat by lia.
  apply Forall2_nil_inv_r in Hat. subst props.
  eexists _, _. split; [exact Heq |].
  simpl. rewrite circles_plot_initial_rir. simpl.
  apply map_eq. intros r. apply Hkeep, not_elem_of_nil.
Qed.

(** What a finished [plot_room] hands over: the new circles, and a reveal
    line that is new and empty. *)
Lemma plot_room_result axs walls (mic_pos : list F) im max_order fs (init_rir : list F) s
    line props s' :
  plot_room axs walls mic_pos im max_order fs init_rir s = Ok (line, props, s') ->
  NoDup props /\
  Forall (fun r => circles s !! r = None) props /\
  Forall2 (fresh_circle_at s') props (expected_positions im max_order) /\
  (forall r, r ∉ props -> circles s' !! r = circles s !! r) /\
  lines s !! line = None /\
  (exists l, lines s' !! line = Some l /\ l_xdata l = [] /\ l_ydata l = []).
Proof.
  intros Hrun.
  assert (Hready : plot_room_ready walls mic_pos im max_order).
  { apply (plot_room_Ok_ready axs walls mic_pos im max_order fs init_rir s). by eexists. }
  destruct (plot_room_unfold axs walls mic_pos im max_order fs init_rir s Hready)
    as (props1 & s1 & (Hnd & Hfr & Hat & Hkeep & Hl1 & _) & Heq).
  rewrite Heq in Hrun. injection Hrun as <- <- <-.
  pose (s2 := plot_initial_rir axs.2 fs init_rir (set_labels axs s1)).
  assert (Hsub : forall r, lines s2 !! r = None -> lines s !! r = None).
  { intros r. unfold s2, plot_initial_rir. case_bool_decide.
    - simpl. rewrite Hl1. intros Hr.
      destruct (decide (fresh (dom (lines s)) = r)) as [<- | Hne].
      + by rewrite lookup_insert_eq in Hr.
      + by rewrite lookup_insert_ne in Hr.
    - simpl. by rewrite Hl1. }
  split_and!; try done.
  - eapply fresh_circle_at_preserved; [exact Hat |].
    intros r _. simpl. by rewrite circles_plot_initial_rir.
  - intros r Hnot. simpl. rewrite circles_plot_initial_rir. by apply Hkeep.
  - apply Hsub. simpl. apply not_elem_of_dom, is_fresh.
  - simpl. rewrite lookup_insert_eq. eauto.
Qed.

End PlotRoomRuns.

(** ** Where [plot_room] draws *)

Section PlotRoomDraws.
Context {F : Type} `{AF : Arith F}.

Implicit Types (s : Scene (F:=F)) (im : SoundSource (F:=F)) (a : Axes (F:=F)).

Lemma patch_refs_add_patch a (r : loc) :
  patch_refs (axes_add (Patch r) a) = patch_refs a ++ [r] /\
  line_refs (axes_add (Patch r) a) = line_refs a.
Proof.
  unfold patch_refs, line_refs. simpl. rewrite !omap_app. simpl.
  by rewrite app_nil_r.
Qed.

Lemma keeps_refs_add (x : Artist (F:=F)) :
  (forall r, x <> Patch r) -> (forall r, x <> Line r) -> keeps_refs (axes_add x).
Proof.
  intros Hp Hl a. unfold patch_refs, line_refs. simpl. rewrite !omap_app.
  destruct x; simpl; rewrite ?app_nil_r; try done.
  - by destruct (Hp r).
  - by destruct (Hl r).
Qed.

Lemma keeps_refs_compose (f g : Axes (F:=F) -> Axes (F:=F)) :
  keeps_refs f -> keeps_refs g -> keeps_refs (fun a => f (g a)).
Proof.
  intros Hf Hg a. destruct (Hf (g a)) as [-> ->]. apply Hg.
Qed.

Lemma keeps_refs_advance : keeps_refs (axes_advance_cycle (F:=F)).
Proof. by intros a. Qed.

Lemma adds_patches_refl ax s : adds_patches ax s s [].
Proof. intros a Ha. exists a. by rewrite app_nil_r. Qed.

Lemma adds_patches_trans ax s s1 s2 (refs1 refs2 : list loc) :
  adds_patches ax s s1 refs1 -> adds_patches ax s1 s2 refs2 ->
  adds_patches ax s s2 (refs1 ++ refs2).
Proof.
  intros H1 H2 a Ha.
  destruct (H1 a Ha) as (a1 & Ha1 & Hp1 & Hl1).
  destruct (H2 a1 Ha1) as (a2 & Ha2 & Hp2 & Hl2).
  exists a2. split; [done |]. rewrite Hp2, Hp1, Hl2, Hl1. by rewrite app_assoc.
Qed.

Lemma adds_patches_on_axes ax (ax' : loc) (f : Axes (F:=F) -> Axes (F:=F)) s :
  keeps_refs f -> adds_patches ax s (on_axes f ax' s) [].
Proof.
  intros Hf a Ha. simpl. destruct (decide (ax' = ax)) as [-> | Hne].
  - rewrite lookup_alter_eq, Ha. simpl. eexists. split; [reflexivity |].
    destruct (Hf a) as [-> ->]. by rewrite app_nil_r.
  - rewrite lookup_alter_ne by done. exists a. by rewrite app_nil_r.
Qed.

Lemma add_circle_patches ax color (props : list loc) s (pt : F * F) :
  exists r s', add_circle ax color (props, s) pt = (props ++ [r], s') /\
               adds_patches ax s s' [r].
Proof.
  unfold add_circle, new_circle. simpl. eexists _, _. split; [reflexivity |].
  intros a Ha. simpl. rewrite lookup_alter_eq, Ha. simpl.
  eexists. split; [reflexivity |]. apply patch_refs_add_patch.
Qed.

Lemma add_circles_patches ax color (pts : list (F * F)) : forall (props : list loc) s,
  exists refs s', foldl (add_circle ax color) (props, s) pts = (props ++ refs, s') /\
                  adds_patches ax s s' refs.
Proof.
  induction pts as [| pt pts IH]; intros props s; simpl.
  - exists [], s. rewrite app_nil_r. split; [done | apply adds_patches_refl].
  - destruct (add_circle_patches ax color props s pt) as (r & s1 & -> & H1).
    destruct (IH (props ++ [r]) s1) as (refs & s2 & -> & H2).
    exists (r :: refs), s2. split; [by rewrite <- app_assoc |].
    apply (adds_patches_trans ax s s1 s2 [r] refs H1 H2).
Qed.

Lemma plot_order_patches ax im (order : Z) (props : list loc) s :
  consistent im ->
  exists refs s', plot_order ax im order (props, s) = Ok (props ++ refs, s') /\
                  adds_patches ax s s' refs.
Proof.
  intros Hc.
  destruct (select_images_consistent im order Hc) as (x & y & Hsel & Hlen & Hsum & Hzip).
  unfold plot_order. rewrite Hsel. simpl. rewrite Hsum, inner_loop by done.
  destruct (add_circles_patches ax (next_color ax s) (zip x y) props
              (on_axes (fun a => axes_advance_cycle
                                   (axes_add (Scatter x y (next_color ax s)) a)) ax s))
    as (refs & s' & -> & Hp).
  exists refs, s'. split; [done |].
  eapply (adds_patches_trans ax s _ s' [] refs); [| exact Hp].
  apply adds_patches_on_axes.
  apply (keeps_refs_compose _ _ keeps_refs_advance). by apply keeps_refs_add.
Qed.

Lemma plot_orders_patches ax im (os : list Z) :
  consistent im -> forall (props : list loc) s,
  exists refs s', for_each os (plot_order ax im) (props, s) = Ok (props ++ refs, s') /\
                  adds_patches ax s s' refs.
Proof.
  intros Hc. induction os as [| o os IH]; intros props s; simpl.
  - exists [], s. rewrite app_nil_r. split; [done | apply adds_patches_refl].
  - destruct (plot_order_patches ax im o props s Hc) as (refs1 & s1 & -> & H1). simpl.
    destruct (IH (props ++ refs1) s1) as (refs2 & s2 & -> & H2).
    exists (refs1 ++ refs2), s2. split; [by rewrite <- app_assoc |].
    by apply (adds_patches_trans ax s s1 s2).
Qed.

Lemma plot_image_sources_patches ax im (max_order : Z) s (props : list loc) s' :
  plot_image_sources ax im max_order s = Ok (props, s') ->
  adds_patches ax s s' props.
Proof.
  unfold plot_image_sources, py_range. intros Hrun.
  destruct (decide (0 <= max_order)) as [Hm | Hm].
  - assert (Hc : consistent im).
    { destruct (arange_first (max_order + 1)) as [rest Hfirst]; [lia |].
      rewrite Hfirst in Hrun. cbn [for_each] in Hrun.
      apply bind_inv in Hrun as (st & Hfirst' & _).
      unfold plot_order in Hfirst'. apply bind_inv in Hfirst' as ([x y] & Hsel & _).
      apply (select_images_Ok im (order_mask im 0) x y); [| done].
      unfold order_mask. apply length_fmap. }
    destruct (plot_orders_patches ax im (arange (max_order + 1)) Hc [] s)
      as (refs & s2 & Heq & Hp).
    rewrite Heq in Hrun. by injection Hrun as <- <-.
  - rewrite arange_nonpos in Hrun by lia. injection Hrun as <- <-.
    apply adds_patches_refl.
Qed.

Lemma set_labels_patches ax axs s : adds_patches ax s (set_labels axs s) [].
Proof.
  unfold set_labels.
  repeat (eapply (adds_patches_trans ax _ _ _ [] []);
          [| apply adds_patches_on_axes; by intros a]).
  apply adds_patches_refl.
Qed.

Lemma patch_refs_add_line a (r : loc) :
  patch_refs (axes_advance_cycle (axes_add (Line r) a)) = patch_refs a.
Proof. unfold patch_refs. simpl. rewrite omap_app. simpl. by rewrite app_nil_r. Qed.

Lemma axes_plot_initial_rir_other ax (ax' : loc) fs (init_rir : list F) s :
  ax' <> ax ->
  axes (plot_initial_rir ax fs init_rir s) !! ax' = axes s !! ax'.
Proof.
  intros Hne. unfold plot_initial_rir. case_bool_decide; [| done].
  simpl. by rewrite lookup_alter_ne.
Qed.

Lemma patches_plot_initial_rir ax fs (init_rir : list F) s b :
  axes s !! ax = Some b ->
  exists b', axes (plot_initial_rir ax fs init_rir s) !! ax = Some b' /\
             patch_refs b' = patch_refs b.
Proof.
  intros Hb. unfold plot_initial_rir. case_bool_decide; [| eauto].
  simpl. rewrite lookup_alter_eq, Hb. simpl. eexists. split; [reflexivity |].
  apply patch_refs_add_line.
Qed.

(** The patches and lines of the two axes after [plot_room]. *)
Lemma plot_room_axes_refs axs walls (mic_pos : list F) im max_order fs
    (init_rir : list F) s line props s' a b :
  axs.1 <> axs.2 ->
  axes s !! axs.1 = Some a -> axes s !! axs.2 = Some b ->
  plot_room axs walls mic_pos im max_order fs init_rir s = Ok (line, props, s') ->
  exists a' b', axes s' !! axs.1 = Some a' /\ axes s' !! axs.2 = Some b' /\
    patch_refs a' = patch_refs a ++ props /\
    line_refs a' = line_refs a /\
    patch_refs b' = patch_refs b.
Proof.
  intros Hne Ha Hb Hrun.
  assert (Hready : plot_room_ready walls mic_pos im max_order).
  { apply (plot_room_Ok_ready axs walls mic_pos im max_order fs init_rir s). by eexists. }
  unfold plot_room in Hrun.
  apply bind_inv in Hrun as (sa & Hwalls & Hrun).
  apply bind_inv in Hrun as (sb & Hmic & Hrun).
  apply bind_inv in Hrun as ([props1 s1] & Hloop & Hrun).
  unfold plot_walls in Hwalls. apply bind_inv in Hwalls as (polygon & _ & Hwalls).
  injection Hwalls as <-.
  unfold plot_microphones in Hmic.
  apply bind_inv in Hmic as (mx & _ & Hmic). apply bind_inv in Hmic as (my & _ & Hmic).
  injection Hmic as <-.
  injection Hrun as <- <- <-.
  set (sb := scatter_colored axs.1 [mx] [my] (NamedColor "k")
               (on_axes (axes_add (PatchCollection [polygon] (RGB 1 1 1) (RGB 0 0 0))) axs.1
                  (on_axes (axes_set_aspect "equal") axs.1 s))) in *.
  assert (Hstatic : forall ax, adds_patches ax s sb []).
  { intros ax. unfold sb, scatter_colored.
    eapply (adds_patches_trans ax _ _ _ [] []);
      [| apply adds_patches_on_axes; by apply keeps_refs_add].
    eapply (adds_patches_trans ax _ _ _ [] []);
      [| apply adds_patches_on_axes; by apply keeps_refs_add].
    apply adds_patches_on_axes. by intros x. }
  assert (Hfirst : adds_patches axs.1 s (set_labels axs s1) props1).
  { rewrite <- (app_nil_r props1).
    eapply (adds_patches_trans _ _ s1 _ props1 []); [| apply set_labels_patches].
    eapply (adds_patches_trans _ _ _ _ [] props1 (Hstatic axs.1)).
    exact (plot_image_sources_patches axs.1 im max_order sb props1 s1 Hloop). }
  assert (Hsecond : adds_patches axs.2 s (set_labels axs s1) []).
  { eapply (adds_patches_trans _ _ s1 _ [] []); [| apply set_labels_patches].
    eapply (adds_patches_trans _ _ _ _ [] [] (Hstatic axs.2)).
    destruct Hready as (_ & _ & Hc).
    destruct (plot_image_sources_grows axs.1 im max_order sb Hc)
      as (refs & s2 & Heq & (_ & _ & _ & _ & _ & Hother)).
    rewrite Heq in Hloop. injection Hloop as -> ->.
    intros x Hx. exists x. rewrite app_nil_r. split; [| done].
    rewrite Hother; [done | congruence]. }
  destruct (Hfirst a Ha) as (a1 & Ha1 & Hpa & Hla).
  destruct (Hsecond b Hb) as (b1 & Hb1 & Hpb & _). rewrite app_nil_r in Hpb.
  destruct (patches_plot_initial_rir axs.2 fs init_rir _ b1 Hb1) as (b2 & Hb2 & Hpb2).
  exists a1, (axes_advance_cycle
                (axes_add (Line (fresh (dom (lines (plot_initial_rir axs.2 fs init_rir
                                                      (set_labels axs s1)))))) b2)).
  split_and!.
  - simpl. rewrite lookup_alter_ne by congruence.
    by rewrite axes_plot_initial_rir_other.
  - simpl. by rewrite lookup_alter_eq, Hb2.
  - done.
  - done.
  - rewrite patch_refs_add_line. congruence.
Qed.

(** Every circle that [plot_room] returns is a patch of the first axes,
    in the order of the returned list; the first axes gains no other patch
    and no line, and the second axes gains no patch. *)
Theorem plot_room_draws_circles axs walls (mic_pos : list F) im max_order fs
    (init_rir : list F) s line props s' a b :
  axs.1 <> axs.2 ->
  axes s !! axs.1 = Some a -> axes s !! axs.2 = Some b ->
  plot_room axs walls mic_pos im max_order fs init_rir s = Ok (line, props, s') ->
  exists a' b', axes s' !! axs.1 = Some a' /\ axes s' !! axs.2 = Some b' /\
    patch_refs a' = patch_refs a ++ props /\
    line_refs a' = line_refs a /\
    patch_refs b' = patch_refs b.
Proof. apply plot_room_axes_refs. Qed.

End PlotRoomDraws.

(** ** What [plot_room] leaves alone *)

Section PlotRoomKeeps.
Context {F : Type} `{AF : Arith F}.

Implicit Types (s : Scene (F:=F)).

Lemma axes_set_labels_other axs (a : loc) s :
  a <> axs.1 -> a <> axs.2 -> axes (set_labels axs s) !! a = axes s !! a.
Proof.
  intros H1 H2. unfold set_labels, on_axes. simpl.
  by rewrite !lookup_alter_ne.
Qed.

(** [plot_room] keeps the circles and lines that were in the store, and
    every axes other than the two it draws on. *)
Lemma plot_room_preserves axs walls (mic_pos : list F) (im : SoundSource (F:=F)) max_order fs
    (init_rir : list F) s line props s' :
  plot_room axs walls mic_pos im max_order fs init_rir s = Ok (line, props, s') ->
  (forall p c, circles s !! p = Some c -> circles s' !! p = Some c /\ p ∉ props) /\
  (forall l d, lines s !! l = Some d -> lines s' !! l = Some d /\ l <> line) /\
  (forall a, a <> axs.1 -> a <> axs.2 -> axes s' !! a = axes s !! a).
Proof.
  intros Hrun.
  destruct (plot_room_result _ _ _ _ _ _ _ _ _ _ _ Hrun) as (_ & Hfr & _ & Hkeep & Hline & _).
  assert (Hready : plot_room_ready walls mic_pos im max_order).
  { apply (plot_room_Ok_ready axs walls mic_pos im max_order fs init_rir s). by eexists. }
  destruct (plot_room_unfold axs walls mic_pos im max_order fs init_rir s Hready)
    as (props1 & s1 & (_ & _ & _ & _ & Hl1 & Ha1) & Heq).
  rewrite Heq in Hrun. injection Hrun as Eline <- Es'.
  split_and!.
  - intros p c Hp.
    assert (Hnot : p ∉ props1).
    { intros Hin. apply (proj1 (Forall_forall _ _) Hfr) in Hin. congruence. }
    split; [| done]. by rewrite Hkeep.
  - intros l d Hl.
    assert (Hne : l <> line) by (intros ->; congruence).
    split; [| done]. rewrite <- Es'. simpl. rewrite lookup_insert_ne by congruence.
    unfold plot_initial_rir. case_bool_decide; simpl.
    + rewrite Hl1. rewrite lookup_insert_ne; [done |].
      intros Heq'. pose proof (is_fresh (dom (lines s))) as Hf.
      apply not_elem_of_dom in Hf. congruence.
    + by rewrite Hl1.
  - intros a H1 H2. rewrite <- Es'. simpl. rewrite lookup_alter_ne by done.
    rewrite axes_plot_initial_rir_other by done.
    rewrite axes_set_labels_other by done. by apply Ha1.
Qed.

End PlotRoomKeeps.

(** ** Drawing and rendering the frames *)

Section RenderProps.
Context {F : Type} `{AF : Arith F}.

Implicit Types (s : Scene (F:=F)) (rir : list F) (fig props : list loc).

Lemma elem_of_arange (m n : Z) : n ∈ arange m <-> 0 <= n < m.
Proof.
  unfold arange. rewrite list_elem_of_fmap. split.
  - intros (k & -> & Hk). apply elem_of_seq in Hk. lia.
  - intros Hn. exists (Z.to_nat n). split; [lia |]. apply elem_of_seq. lia.
Qed.

(** A frame leaves the lines of the figure where they are. *)
Lemma figure_lines_frame fig ax line props rir fs n s :
  figure_lines fig (frame_scene ax line props rir fs n s) = figure_lines fig s.
Proof.
  unfold figure_lines, frame_scene. rewrite axes_frame_loop.
  destruct props as [| q props]; [done |].
  f_equal. apply list_fmap_ext. intros i a _.
  destruct (decide (ax = a)) as [-> | Hne].
  - rewrite lookup_alter_eq. by destruct (axes s !! a).
  - by rewrite lookup_alter_ne.
Qed.

Lemma line_drawable_frame ax line props rir fs n s (r : loc) :
  is_Some (lines s !! line) ->
  line_drawable (frame_scene ax line props rir fs n s) r =
  if decide (r = line) then
    match props with
    | [] => line_drawable s line
    | _ => broadcasts (Z.to_nat n) (length (py_slice_to rir n))
    end
  else line_drawable s r.
Proof.
  intros [l0 Hl0]. unfold line_drawable, frame_scene. rewrite lines_frame_loop.
  destruct props as [| q props].
  - case_decide; [by subst | done].
  - case_decide as Hr.
    + subst r. rewrite lookup_alter_eq, Hl0. simpl. by rewrite length_time_axis.
    + by rewrite lookup_alter_ne.
Qed.

Lemma figure_ready_frame fig ax line props rir fs n s :
  figure_ready fig line props s ->
  figure_ready fig line props (frame_scene ax line props rir fs n s).
Proof.
  intros (Hin & Hlive & Hempty & Hothers). unfold figure_ready.
  rewrite figure_lines_frame. split_and!.
  - done.
  - unfold frame_scene. rewrite lines_frame_loop.
    destruct props; [done |]. by rewrite lookup_alter_is_Some.
  - intros ->. rewrite line_drawable_frame by done.
    rewrite decide_True by done. by apply Hempty.
  - intros r Hr Hne. rewrite line_drawable_frame by done.
    rewrite decide_False by done. by apply Hothers.
Qed.

(** Whether the figure can be drawn after a frame is a matter of the
    reveal line alone. *)
Lemma draw_frame fig ax line props rir fs n s :
  figure_ready fig line props s ->
  draw fig (frame_scene ax line props rir fs n s) =
  if reveal_drawable props rir n then Ok tt else Raise ValueError.
Proof.
  intros (Hin & Hlive & Hempty & Hothers). unfold draw. rewrite figure_lines_frame.
  destruct (reveal_drawable props rir n) eqn:Hd.
  - rewrite (proj2 (forallb_forall _ _)); [done |].
    intros r Hr%list_elem_of_In. rewrite line_drawable_frame by done.
    case_decide as Heq.
    + unfold reveal_drawable in Hd. destruct props; [by apply Hempty | done].
    + by apply Hothers.
  - destruct (forallb _ _) eqn:Hall; [| done]. exfalso.
    pose proof (proj1 (forallb_forall _ _) Hall line (proj1 (list_elem_of_In _ _) Hin)) as Hl.
    rewrite line_drawable_frame in Hl by done. rewrite decide_True in Hl by done.
    unfold reveal_drawable in Hd. destruct props; congruence.
Qed.

Lemma render_frame_cases fig ax line props rir fs (n : Z) (acc : list Scene) s :
  figure_ready fig line props s -> fs <> 0 ->
  render_frame fig ax line props rir fs n (acc, s) =
  if truediv_overflows n fs then Raise OverflowError
  else if reveal_drawable props rir n
       then Ok (acc ++ [frame_scene ax line props rir fs n s],
                frame_scene ax line props rir fs n s)
       else Raise ValueError.
Proof.
  intros Hready Hfs. unfold render_frame. cbn [fst snd].
  rewrite animate_cases, bool_decide_eq_false_2 by done.
  destruct (truediv_overflows n fs); [done |]. simpl.
  change (foldl (animate_body n ax line rir fs (truediv n fs)) s props)
    with (frame_scene ax line props rir fs n s).
  rewrite draw_frame by done. by destruct (reveal_drawable props rir n).
Qed.

Lemma last_run_frames ax line props rir fs (n : Z) (ns : list Z) s :
  default s (last (run_frames ax line props rir fs (n :: ns) s)) =
  default (frame_scene ax line props rir fs n s)
    (last (run_frames ax line props rir fs ns (frame_scene ax line props rir fs n s))).
Proof.
  simpl.
  destruct (run_frames ax line props rir fs ns (frame_scene ax line props rir fs n s))
    as [| p ps] eqn:Hrun; [done |].
  rewrite last_cons_cons.
  destruct (last (p :: ps)) as [q |] eqn:Hlast; [done |].
  by apply last_None in Hlast.
Qed.

Lemma render_loop fig ax line props rir fs (ns : list Z) :
  fs <> 0 ->
  Forall (fun n => truediv_overflows n fs = false /\ reveal_drawable props rir n = true) ns ->
  forall (acc : list Scene) s, figure_ready fig line props s ->
  for_each ns (render_frame fig ax line props rir fs) (acc, s) =
  Ok (acc ++ run_frames ax line props rir fs ns s,
      default s (last (run_frames ax line props rir fs ns s))).
Proof.
  intros Hfs. induction 1 as [| n ns [Hrange Hdraw] _ IH]; intros acc s Hready.
  - simpl. by rewrite app_nil_r.
  - cbn [for_each]. rewrite render_frame_cases, Hrange, Hdraw by done. simpl.
    rewrite IH by by apply figure_ready_frame.
    rewrite <- app_assoc. simpl. f_equal. f_equal.
    symmetry. apply last_run_frames.
Qed.

Lemma render_loop_inv fig ax line props rir fs (ns : list Z) :
  forall (acc : list Scene) s (r : list Scene * Scene), figure_ready fig line props s ->
  for_each ns (render_frame fig ax line props rir fs) (acc, s) = Ok r ->
  (ns <> [] -> fs <> 0) /\
  Forall (fun n => truediv_overflows n fs = false /\ reveal_drawable props rir n = true) ns.
Proof.
  induction ns as [| n ns IH]; intros acc s r Hready Hrun; [by split |].
  cbn [for_each] in Hrun.
  assert (Hfs : fs <> 0).
  { intros ->. unfold render_frame in Hrun. by rewrite animate_cases in Hrun. }
  rewrite render_frame_cases in Hrun by done.
  destruct (truediv_overflows n fs) eqn:Hrange; [done |].
  destruct (reveal_drawable props rir n) eqn:Hdraw; [| done].
  simpl in Hrun. apply IH in Hrun as [_ Hall]; [| by apply figure_ready_frame].
  split; [done |]. by constructor.
Qed.

Lemma frames_in_range (frames fs k : Z) :
  frames_ready frames fs -> 0 <= k < frames -> truediv_overflows k fs = false.
Proof.
  intros (_ & _ & Hlast) Hk. apply (truediv_overflows_mono k (frames - 1)); [lia | done].
Qed.

(** The animation is saved: there is a frame, every frame number divides
    by the rate and every frame can be drawn. *)
Lemma render_spec fig (frames : Z) ax line props rir fs s :
  figure_ready fig line props s -> frames_ready frames fs ->
  (forall k, 0 <= k < frames -> reveal_drawable props rir k = true) ->
  render fig frames ax line props rir fs s =
  Ok (run_frames ax line props rir fs (arange frames) s,
      default s (last (run_frames ax line props rir fs (arange frames) s))).
Proof.
  intros Hready Hframes Hdraw. pose proof Hframes as (Hpos & Hfs & _).
  unfold render, py_range. rewrite bool_decide_eq_false_2 by lia.
  rewrite (render_loop fig ax line props rir fs (arange frames) Hfs); [| | done].
  - simpl. by rewrite bool_decide_eq_false_2 by lia.
  - apply Forall_forall. intros k Hk%elem_of_arange.
    split; [by apply (frames_in_range frames) | by apply Hdraw].
Qed.

Lemma render_inv fig (frames : Z) ax line props rir fs s (r : list Scene * Scene) :
  figure_ready fig line props s ->
  render fig frames ax line props rir fs s = Ok r ->
  frames_ready frames fs /\
  (forall k, 0 <= k < frames -> reveal_drawable props rir k = true).
Proof.
  intros Hready. unfold render, py_range.
  case_bool_decide as Hneg; [done |]. intros Hrun.
  apply bind_inv in Hrun as (r' & Hloop & Hrun).
  case_bool_decide as Hzero; [done |].
  apply render_loop_inv in Hloop as [Hfs Hall]; [| done].
  assert (Hin : forall k, 0 <= k < frames ->
            truediv_overflows k fs = false /\ reveal_drawable props rir k = true).
  { intros k Hk. apply (proj1 (Forall_forall _ _) Hall). by apply elem_of_arange. }
  split; [| intros k Hk; by apply Hin].
  split_and!; [lia | | apply Hin; lia].
  apply Hfs. intros Hnil. apply (f_equal length) in Hnil.
  rewrite length_arange in Hnil. simpl in Hnil. lia.
Qed.

(** The frames [0 .. frames - 1] can all be drawn exactly when no circle
    is listed, or the response is a single sample, or it reaches the times
    of the last frame. *)
Lemma reveal_drawable_all props rir (frames : Z) :
  (forall k, 0 <= k < frames -> reveal_drawable props rir k = true) <->
  props = [] \/ length rir = 1%nat \/ frames - 1 <= Z.max 1 (Z.of_nat (length rir)).
Proof.
  split.
  - intros Hall. destruct props as [| q props]; [by left | right].
    destruct (decide (length rir = 1%nat)) as [| Hone]; [by left | right].
    destruct (decide (frames - 1 <= Z.max 1 (Z.of_nat (length rir)))) as [| Hlong]; [done |].
    exfalso. specialize (Hall (frames - 1) ltac:(lia)).
    unfold reveal_drawable, broadcasts in Hall.
    rewrite py_slice_to_nonneg, length_take in Hall by lia.
    apply orb_prop in Hall as [Hall | Hall]; [apply orb_prop in Hall as [Hall | Hall] |];
      apply bool_decide_eq_true in Hall; lia.
  - intros Hcases k Hk. unfold reveal_drawable, broadcasts.
    destruct props as [| q props]; [done |].
    rewrite py_slice_to_nonneg, length_take by lia.
    destruct Hcases as [| [Hone | Hlong]]; [done | |].
    + destruct (decide (k = 0)) as [-> | Hpos].
      * by rewrite bool_decide_eq_true_2 by (simpl; lia).
      * rewrite (bool_decide_eq_true_2 (_ `min` _ = 1)%nat) by lia.
        by rewrite orb_true_r.
    + destruct (decide (k <= Z.of_nat (length rir))) as [Hle | Hgt].
      * by rewrite bool_decide_eq_true_2 by lia.
      * rewrite (bool_decide_eq_true_2 (Z.to_nat k = 1)%nat) by lia.
        by rewrite orb_true_r.
Qed.


End RenderProps.

(** ** [create_animation] *)

Section CreateAnimationProps.
Context {F : Type} `{AF : Arith F}.

Implicit Types (s : Scene (F:=F)) (w : World (F:=F)) (room : Room (F:=F)) (rir : list F).

Lemma close_tight_layout (figs : list Figure) (f : Figure) :
  close (tight_layout (figs ++ [f])) = figs.
Proof.
  unfold tight_layout. rewrite reverse_snoc, reverse_involutive.
  unfold close. by rewrite reverse_snoc, reverse_involutive.
Qed.

Lemma room_dim_lookup (globals : gmap string (list Z)) :
  room_dim_ready globals ->
  exists (dims : list Z) (d0 d1 : Z),
    globals !! "room_dim"%string = Some dims /\
    py_index dims 0 = Ok d0 /\ py_index dims 1 = Ok d1.
Proof.
  intros (dims & Hdims & Hlen).
  destruct (py_index_lt dims 0) as [d0 Hd0]; [lia |].
  destruct (py_index_lt dims 1) as [d1 Hd1]; [lia |].
  by exists dims, d0, d1.
Qed.

(** The figure of [plt.subplots]: two new, distinct, empty axes; nothing
    else changes. *)
Lemma subplots2_spec w (ax_a ax_b : loc) w1 :
  subplots2 w = (ax_a, ax_b, w1) ->
  ax_a <> ax_b /\
  axes (scene w1) !! ax_a = Some empty_axes /\
  axes (scene w1) !! ax_b = Some empty_axes /\
  circles (scene w1) = circles (scene w) /\ lines (scene w1) = lines (scene w) /\
  (forall a x, axes (scene w) !! a = Some x ->
     axes (scene w1) !! a = Some x /\ a <> ax_a /\ a <> ax_b) /\
  figures w1 = figures w ++ [mkFigure [ax_a; ax_b] false] /\
  files w1 = files w.
Proof.
  unfold subplots2. intros [= <- <- <-]. cbn [scene figures files].
  set (a := fresh (dom (axes (scene w)))).
  assert (Ha : axes (scene w) !! a = None) by apply not_elem_of_dom, is_fresh.
  set (sa := with_axes (insert a empty_axes) (scene w)).
  set (b := fresh (dom (axes sa))).
  assert (Hb : axes sa !! b = None) by apply not_elem_of_dom, is_fresh.
  assert (Hne : a <> b).
  { intros Heq. rewrite <- Heq in Hb. unfold sa in Hb. simpl in Hb.
    by rewrite lookup_insert_eq in Hb. }
  unfold sa in *. simpl in *.
  split_and!; try done.
  - rewrite lookup_insert_ne by done. apply lookup_insert_eq.
  - apply lookup_insert_eq.
  - intros x y Hx.
    assert (x <> a) by congruence.
    assert (x <> b).
    { intros ->. rewrite lookup_insert_ne in Hb by done. congruence. }
    split_and!; [| done | done]. by rewrite !lookup_insert_ne.
Qed.

(** After [plot_room] on two new axes the figure shows the reference
    waveform, if there is one, and the reveal line, which is empty. *)
Lemma plot_room_figure_ready axs walls (mic_pos : list F) (im : SoundSource (F:=F)) max_order fs
    (init_rir : list F) s (line : loc) (props : list loc) s' (d0 d1 : Z) :
  axs.1 <> axs.2 ->
  axes s !! axs.1 = Some empty_axes -> axes s !! axs.2 = Some empty_axes ->
  plot_room axs walls mic_pos im max_order fs init_rir s = Ok (line, props, s') ->
  figure_ready [axs.1; axs.2] line props (restrict_view axs.1 d0 d1 s').
Proof.
  intros Hne Ha Hb Hrun.
  assert (Hready : plot_room_ready walls mic_pos im max_order).
  { apply (plot_room_Ok_ready axs walls mic_pos im max_order fs init_rir s). by eexists. }
  destruct (plot_room_axes_refs _ _ _ _ _ _ _ _ _ _ _ _ _ Hne Ha Hb Hrun)
    as (a' & b' & Ha' & Hb' & _ & Hla & _).
  destruct (plot_room_second_axes axs walls mic_pos im max_order fs init_rir s empty_axes
              Hready Hne Hb)
    as (line2 & props2 & s2 & b2 & Hrun2 & Hb2 & Hfresh & Hempty & Hfull).
  rewrite Hrun in Hrun2. injection Hrun2 as <- <- <-.
  rewrite Hb' in Hb2. injection Hb2 as <-.
  assert (Hfig : figure_lines [axs.1; axs.2] (restrict_view axs.1 d0 d1 s') = line_refs b').
  { unfold figure_lines, restrict_view. simpl.
    rewrite !lookup_alter_eq, Ha'. rewrite !lookup_alter_ne by done. rewrite Hb'. simpl.
    rewrite app_nil_r.
    change (line_refs a' ++ line_refs b' = line_refs b'). by rewrite Hla. }
  unfold figure_ready. rewrite Hfig.
  change (lines (restrict_view axs.1 d0 d1 s')) with (lines s').
  assert (Hdraw : forall r, line_drawable (restrict_view axs.1 d0 d1 s') r = line_drawable s' r)
    by done.
  destruct init_rir as [| v init_rir].
  - destruct (Hempty eq_refl) as [Hart Hl].
    assert (Hrefs : line_refs b' = [line]) by (unfold line_refs; by rewrite Hart).
    rewrite Hrefs, Hl. split_and!.
    + apply list_elem_of_singleton. reflexivity.
    + rewrite lookup_insert_eq. eauto.
    + intros _. rewrite Hdraw. unfold line_drawable. by rewrite Hl, lookup_insert_eq.
    + intros r Hr%list_elem_of_singleton Hneq. done.
  - destruct (Hfull ltac:(done)) as (ref & Hneq & Hnew & Hart & Hl).
    assert (Hrefs : line_refs b' = [ref; line]) by (unfold line_refs; by rewrite Hart).
    rewrite Hrefs, Hl. split_and!.
    + apply elem_of_cons. right. apply list_elem_of_singleton. reflexivity.
    + rewrite lookup_insert_eq. eauto.
    + intros _. rewrite Hdraw. unfold line_drawable. by rewrite Hl, lookup_insert_eq.
    + intros r Hr Hnl. apply elem_of_cons in Hr as [-> | Hr%list_elem_of_singleton]; [| done].
      rewrite Hdraw. unfold line_drawable.
      rewrite Hl, lookup_insert_ne, lookup_insert_eq by done. simpl.
      unfold broadcasts. rewrite length_time_axis, Nat2Z.id.
      by rewrite bool_decide_eq_true_2.
Qed.

(** No circle is made exactly when no image source is in range. *)
Lemma plot_room_no_circle axs walls (mic_pos : list F) (im : SoundSource (F:=F)) max_order fs
    (init_rir : list F) s (line : loc) (props : list loc) s' :
  plot_room axs walls mic_pos im max_order fs init_rir s = Ok (line, props, s') ->
  props = [] <-> expected_positions im max_order = [].
Proof.
  intros Hrun.
  destruct (plot_room_result _ _ _ _ _ _ _ _ _ _ _ Hrun) as (_ & _ & Hat & _).
  apply Forall2_length in Hat. split.
  - intros ->. by destruct (expected_positions im max_order).
  - intros Hnone. rewrite Hnone in Hat. by destruct props.
Qed.

(** A run of [create_animation] that meets no exception: the figure, the
    static plot, the view limits, and the pictures of the frames
    [0 .. frames - 1], written at 60 frames per second under the name
    [filename + ".mp4"], the figure closed. *)
Lemma create_animation_unfold globals room rir idx (init_rir : list F) filename w frames :
  plot_inputs_ready room idx -> room_dim_ready globals ->
  frame_count (room_fs room) = Ok frames ->
  frames_ready frames (room_fs room) ->
  response_ready room idx rir frames ->
  exists (ax_a ax_b : loc) w1 (mic : list F) im (line : loc) (props : list loc) s1
         (dims : list Z) (d0 d1 : Z),
    subplots2 w = (ax_a, ax_b, w1) /\
    py_index (room_mics room) idx.1 = Ok mic /\
    py_index (room_sources room) idx.2 = Ok im /\
    plot_room (ax_a, ax_b) (room_walls room) mic im (room_max_order room) (room_fs room)
              init_rir (scene w1) = Ok (line, props, s1) /\
    globals !! "room_dim"%string = Some dims /\
    py_index dims 0 = Ok d0 /\ py_index dims 1 = Ok d1 /\
    create_animation globals room rir idx init_rir filename w =
    Ok (mkWorld
          (default (restrict_view ax_a d0 d1 s1)
             (last (run_frames ax_a line props rir (room_fs room) (arange frames)
                      (restrict_view ax_a d0 d1 s1))))
          (figures w)
          (<[(filename ++ ".mp4")%string :=
               mkVideo 60 (run_frames ax_a line props rir (room_fs room) (arange frames)
                             (restrict_view ax_a d0 d1 s1))]>
             (files w))).
Proof.
  intros (mic & im & Hmic & Him & Hready) Hdim Hcount Hframes Hresp.
  destruct (room_dim_lookup globals Hdim) as (dims & d0 & d1 & Hdims & Hd0 & Hd1).
  destruct (subplots2 w) as [[ax_a ax_b] w1] eqn:Hsub.
  destruct (subplots2_spec w ax_a ax_b w1 Hsub)
    as (Hne & Ha & Hb & _ & _ & _ & Hfigs & Hfiles).
  assert (Hruns : succeeds (plot_room (ax_a, ax_b) (room_walls room) mic im
                              (room_max_order room) (room_fs room) init_rir (scene w1))).
  { destruct (plot_room_unfold (ax_a, ax_b) (room_walls room) mic im (room_max_order room)
                (room_fs room) init_rir (scene w1) Hready) as (p & s' & _ & ->).
    by eexists. }
  destruct Hruns as [[[line props] s1] Hplot].
  pose proof (plot_room_figure_ready (ax_a, ax_b) _ _ _ _ _ _ _ _ _ _ d0 d1 Hne Ha Hb Hplot)
    as Hfig.
  exists ax_a, ax_b, w1, mic, im, line, props, s1, dims, d0, d1.
  split_and!; try done.
  unfold create_animation. rewrite Hsub, Hmic. simpl. rewrite Him. simpl.
  rewrite Hplot. simpl. rewrite Hdims. simpl. rewrite Hd0. simpl. rewrite Hd1. simpl.
  rewrite Hcount. simpl.
  change (on_axes (axes_set_ylim (of_int 0) (of_int d1)) ax_a
            (on_axes (axes_set_xlim (of_int 0) (of_int d0)) ax_a s1))
    with (restrict_view ax_a d0 d1 s1).
  rewrite render_spec; [| done | done |].
  - simpl. by rewrite Hfigs, close_tight_layout, Hfiles.
  - apply reveal_drawable_all.
    destruct (Hresp im Him) as [Hnone | Hlong]; [left | by right].
    by apply (plot_room_no_circle _ _ _ _ _ _ _ _ _ _ _ Hplot).
Qed.

(** Everything a normal return of [create_animation] went through. *)
Lemma create_animation_inv globals room rir idx (init_rir : list F) filename w w' :
  create_animation globals room rir idx init_rir filename w = Ok w' ->
  exists (ax_a ax_b : loc) w1 (mic : list F) im (line : loc) (props : list loc) s1
         (dims : list Z) (d0 d1 frames : Z),
    subplots2 w = (ax_a, ax_b, w1) /\
    py_index (room_mics room) idx.1 = Ok mic /\
    py_index (room_sources room) idx.2 = Ok im /\
    plot_room (ax_a, ax_b) (room_walls room) mic im (room_max_order room) (room_fs room)
              init_rir (scene w1) = Ok (line, props, s1) /\
    globals !! "room_dim"%string = Some dims /\
    py_index dims 0 = Ok d0 /\ py_index dims 1 = Ok d1 /\
    frame_count (room_fs room) = Ok frames /\
    frames_ready frames (room_fs room) /\
    (forall k, 0 <= k < frames -> reveal_drawable props rir k = true) /\
    w' = mkWorld
           (default (restrict_view ax_a d0 d1 s1)
              (last (run_frames ax_a line props rir (room_fs room) (arange frames)
                       (restrict_view ax_a d0 d1 s1))))
           (figures w)
           (<[(filename ++ ".mp4")%string :=
                mkVideo 60 (run_frames ax_a line props rir (room_fs room) (arange frames)
                              (restrict_view ax_a d0 d1 s1))]>
              (files w)).
Proof.
  unfold create_animation. destruct (subplots2 w) as [[ax_a ax_b] w1] eqn:Hsub.
  destruct (subplots2_spec w ax_a ax_b w1 Hsub)
    as (Hne & Ha & Hb & _ & _ & _ & Hfigs & Hfiles).
  intros Hrun.
  apply bind_inv in Hrun as (mic & Hmic & Hrun).
  apply bind_inv in Hrun as (im & Him & Hrun).
  apply bind_inv in Hrun as ([[line props] s1] & Hplot & Hrun).
  apply bind_inv in Hrun as (dims & Hdims & Hrun).
  apply bind_inv in Hrun as (d0 & Hd0 & Hrun).
  apply bind_inv in Hrun as (dims' & Hdims' & Hrun).
  apply bind_inv in Hrun as (d1 & Hd1 & Hrun).
  apply bind_inv in Hrun as (frames & Hcount & Hrun).
  apply bind_inv in Hrun as ([pictures sl] & Hrender & Hrun).
  destruct (globals !! "room_dim"%string) as [dims0 |] eqn:Hg; [| done].
  injection Hdims as <-. injection Hdims' as <-.
  change (on_axes (axes_set_ylim (of_int 0) (of_int d1)) ax_a
            (on_axes (axes_set_xlim (of_int 0) (of_int d0)) ax_a s1))
    with (restrict_view ax_a d0 d1 s1) in Hrender.
  pose proof (plot_room_figure_ready (ax_a, ax_b) _ _ _ _ _ _ _ _ _ _ d0 d1 Hne Ha Hb Hplot)
    as Hfig.
  destruct (render_inv _ _ _ _ _ _ _ _ _ Hfig Hrender) as [Hframes Hdraw].
  rewrite render_spec in Hrender by done. injection Hrender as <- <-.
  rewrite Hfigs, close_tight_layout, Hfiles in Hrun. injection Hrun as <-.
  exists ax_a, ax_b, w1, mic, im, line, props, s1, dims0, d0, d1, frames.
  split_and!; done.
Qed.

End CreateAnimationProps.

(** ** What [create_animation] renders and exports *)

Section CreateAnimationTheorems.
Context {F : Type} `{AF : Arith F}.

Implicit Types (s : Scene (F:=F)) (w : World (F:=F)) (room : Room (F:=F)) (rir : list F).



(** C5, amended: without the global [room_dim] a call of
    [create_animation] never returns normally.  An exception of the
    indexing of the microphone or of the source, or of [plot_room] on the
    new figure, ends the call as it is; when these three run to their end,
    so that the figure and the static plot are built, the exception is
    [NameError] for [room_dim]. *)
Theorem create_animation_needs_room_dim globals room rir idx (init_rir : list F)
    filename w (ax_a ax_b : loc) w1 :
  globals !! "room_dim"%string = None ->
  subplots2 w = (ax_a, ax_b, w1) ->
  ~ succeeds (create_animation globals room rir idx init_rir filename w) /\
  (forall e, py_index (room_mics room) idx.1 = Raise e ->
     create_animation globals room rir idx init_rir filename w = Raise e) /\
  (forall (mic : list F) e,
     py_index (room_mics room) idx.1 = Ok mic ->
     py_index (room_sources room) idx.2 = Raise e ->
     create_animation globals room rir idx init_rir filename w = Raise e) /\
  (forall (mic : list F) im e,
     py_index (room_mics room) idx.1 = Ok mic ->
     py_index (room_sources room) idx.2 = Ok im ->
     plot_room (ax_a, ax_b) (room_walls room) mic im (room_max_order room) (room_fs room)
               init_rir (scene w1) = Raise e ->
     create_animation globals room rir idx init_rir filename w = Raise e) /\
  (forall (mic : list F) im (line : loc) (props : list loc) s1,
     py_index (room_mics room) idx.1 = Ok mic ->
     py_index (room_sources room) idx.2 = Ok im ->
     plot_room (ax_a, ax_b) (room_walls room) mic im (room_max_order room) (room_fs room)
               init_rir (scene w1) = Ok (line, props, s1) ->
     create_animation globals room rir idx init_rir filename w =
     Raise (NameError "room_dim")) /\
  (plot_inputs_ready room idx ->
     create_animation globals room rir idx init_rir filename w =
     Raise (NameError "room_dim")).
Proof.
  intros Hnone Hsub.
  assert (Hmic : forall e, py_index (room_mics room) idx.1 = Raise e ->
            create_animation globals room rir idx init_rir filename w = Raise e).
  { intros e He. unfold create_animation. by rewrite Hsub, He. }
  assert (Hsrc : forall (mic : list F) e,
            py_index (room_mics room) idx.1 = Ok mic ->
            py_index (room_sources room) idx.2 = Raise e ->
            create_animation globals room rir idx init_rir filename w = Raise e).
  { intros mic e Hm He. unfold create_animation. rewrite Hsub, Hm. simpl. by rewrite He. }
  assert (Hplot : forall (mic : list F) im e,
            py_index (room_mics room) idx.1 = Ok mic ->
            py_index (room_sources room) idx.2 = Ok im ->
            plot_room (ax_a, ax_b) (room_walls room) mic im (room_max_order room)
                      (room_fs room) init_rir (scene w1) = Raise e ->
            create_animation globals room rir idx init_rir filename w = Raise e).
  { intros mic im e Hm Hi He. unfold create_animation. rewrite Hsub, Hm. simpl.
    rewrite Hi. simpl. by rewrite He. }
  assert (Hname : forall (mic : list F) im (line : loc) (props : list loc) s1,
            py_index (room_mics room) idx.1 = Ok mic ->
            py_index (room_sources room) idx.2 = Ok im ->
            plot_room (ax_a, ax_b) (room_walls room) mic im (room_max_order room)
                      (room_fs room) init_rir (scene w1) = Ok (line, props, s1) ->
            create_animation globals room rir idx init_rir filename w =
            Raise (NameError "room_dim")).
  { intros mic im line props s1 Hm Hi Hp. unfold create_animation. rewrite Hsub, Hm. simpl.
    rewrite Hi. simpl. rewrite Hp. simpl. by rewrite Hnone. }
  split_and!; try done.
  - intros [w' Hrun].
    destruct (py_index (room_mics room) idx.1) as [e | mic] eqn:Hm;
      [by rewrite (Hmic e) in Hrun |].
    destruct (py_index (room_sources room) idx.2) as [e | im] eqn:Hi;
      [by rewrite (Hsrc mic e) in Hrun |].
    destruct (plot_room (ax_a, ax_b) (room_walls room) mic im (room_max_order room)
                (room_fs room) init_rir (scene w1)) as [e | [[line props] s1]] eqn:Hp;
      [by rewrite (Hplot mic im e) in Hrun | by rewrite (Hname mic im line props s1) in Hrun].
  - intros (mic & im & Hm & Hi & Hready).
    destruct (plot_room_unfold (ax_a, ax_b) (room_walls room) mic im (room_max_order room)
                (room_fs room) init_rir (scene w1) Hready) as (props & s' & _ & Hp).
    by eapply Hname.
Qed.


(** In picture [k] of the video every circle that the call created has the
    radius [(k / fs) * 343.0] and the alpha [1 - (k / fs) * 10]: the video
    shows each wavefront where sound is at the time of the frame. *)
Theorem exported_circles globals room rir idx (init_rir : list F) filename w w' video :
  create_animation globals room rir idx init_rir filename w = Ok w' ->
  files w' !! (filename ++ ".mp4")%string = Some video ->
  forall (k : nat) pic, v_frames video !! k = Some pic ->
    forall p c, circles pic !! p = Some c -> circles (scene w) !! p = None ->
      c_radius c = frame_radius (Z.of_nat k) (room_fs room) /\
      c_alpha c = Some (frame_alpha (Z.of_nat k) (room_fs room)).
Proof.
  intros Hrun Hfile k pic Hk p c Hp Hnew.
  destruct (create_animation_inv _ _ _ _ _ _ _ _ Hrun)
    as (ax_a & ax_b & w1 & mic & im & line & props & s1 & dims & d0 & d1 & frames &
        Hsub & _ & _ & Hplot & _ & _ & _ & _ & _ & _ & ->).
  destruct (subplots2_spec w ax_a ax_b w1 Hsub) as (_ & _ & _ & Hcw & _).
  cbn [files] in Hfile. rewrite lookup_insert_eq in Hfile.
  injection Hfile as <-. cbn [v_frames] in Hk.
  apply lookup_run_frames_inv in Hk as [_ ->].
  unfold frame_scene in Hp. rewrite circles_frame_loop in Hp. simpl in Hp.
  destruct (plot_room_result _ _ _ _ _ _ _ _ _ _ _ Hplot) as (_ & _ & _ & Hkeep & _).
  case_decide as Hin.
  - destruct (circles s1 !! p) as [c0 |]; [| done].
    injection Hp as <-. done.
  - rewrite Hkeep, Hcw, Hnew in Hp by done. done.
Qed.

(** When the source has an image in range, the reveal line of picture [k]
    holds the first [k] samples of [rir] against [k] times, the [j]-th of
    them [j / fs]. *)
Theorem exported_reveal globals room rir idx (init_rir : list F) filename w w' video im :
  create_animation globals room rir idx init_rir filename w = Ok w' ->
  files w' !! (filename ++ ".mp4")%string = Some video ->
  py_index (room_sources room) idx.2 = Ok im ->
  expected_positions im (room_max_order room) <> [] ->
  exists line, lines (scene w) !! line = None /\
    forall (k : nat) pic, v_frames video !! k = Some pic ->
      exists l, lines pic !! line = Some l /\
        l_ydata l = take k rir /\
        length (l_xdata l) = k /\
        forall j, (j < k)%nat ->
          l_xdata l !! j = Some (fdiv (of_int (Z.of_nat j)) (of_int (room_fs room))).
Proof.
  intros Hrun Hfile Him Hpos.
  destruct (create_animation_inv _ _ _ _ _ _ _ _ Hrun)
    as (ax_a & ax_b & w1 & mic & im' & line & props & s1 & dims & d0 & d1 & frames &
        Hsub & _ & Him' & Hplot & _ & _ & _ & _ & _ & _ & ->).
  destruct (subplots2_spec w ax_a ax_b w1 Hsub) as (_ & _ & _ & _ & Hlw & _).
  rewrite Him in Him'. injection Him' as <-.
  cbn [files] in Hfile. rewrite lookup_insert_eq in Hfile.
  injection Hfile as <-.
  destruct (plot_room_result _ _ _ _ _ _ _ _ _ _ _ Hplot)
    as (_ & _ & _ & _ & Hfresh & l0 & Hl0 & _).
  assert (Hprops : props <> []).
  { intros Hnil. by apply (plot_room_no_circle _ _ _ _ _ _ _ _ _ _ _ Hplot) in Hnil. }
  exists line. split; [by rewrite <- Hlw |].
  intros k pic Hk. cbn [v_frames] in Hk.
  apply lookup_run_frames_inv in Hk as [_ ->].
  unfold frame_scene. rewrite lines_frame_loop.
  destruct props as [| q props]; [done |].
  change (lines (restrict_view ax_a d0 d1 s1)) with (lines s1).
  rewrite lookup_alter_eq, Hl0. simpl. eexists. split; [reflexivity |]. simpl.
  split_and!.
  - by rewrite py_slice_to_nonneg, Nat2Z.id by lia.
  - by rewrite length_time_axis, Nat2Z.id.
  - intros j Hj. apply lookup_time_axis. lia.
Qed.

(** When the source has no image in range, no circle is created and the
    loop of [animate] never runs: every picture of the video is the static
    plot, which is also the store the call leaves behind. *)
Theorem exported_static globals room rir idx (init_rir : list F) filename w w' video im :
  create_animation globals room rir idx init_rir filename w = Ok w' ->
  files w' !! (filename ++ ".mp4")%string = Some video ->
  py_index (room_sources room) idx.2 = Ok im ->
  expected_positions im (room_max_order room) = [] ->
  circles (scene w') = circles (scene w) /\
  forall (k : nat) pic, v_frames video !! k = Some pic -> pic = scene w'.
Proof.
  intros Hrun Hfile Him Hnone.
  destruct (create_animation_inv _ _ _ _ _ _ _ _ Hrun)
    as (ax_a & ax_b & w1 & mic & im' & line & props & s1 & dims & d0 & d1 & frames &
        Hsub & _ & Him' & Hplot & _ & _ & _ & _ & _ & _ & ->).
  destruct (subplots2_spec w ax_a ax_b w1 Hsub) as (_ & _ & _ & Hcw & _).
  rewrite Him in Him'. injection Him' as <-.
  cbn [files] in Hfile. rewrite lookup_insert_eq in Hfile.
  injection Hfile as <-.
  destruct (plot_room_result _ _ _ _ _ _ _ _ _ _ _ Hplot) as (_ & _ & Hat & Hkeep & _).
  rewrite Hnone in Hat. apply Forall2_nil_inv_r in Hat. subst props.
  set (s0 := restrict_view ax_a d0 d1 s1).
  assert (Hall : forall (ns : list Z) (k : nat) pic,
            run_frames ax_a line [] rir (room_fs room) ns s0 !! k = Some pic -> pic = s0).
  { induction ns as [| n ns IH]; intros k pic Hk; [done |].
    destruct k as [| k]; simpl in Hk; [by injection Hk | by apply (IH k)]. }
  assert (Hlast : default s0 (last (run_frames ax_a line [] rir (room_fs room)
                                      (arange frames) s0)) = s0).
  { destruct (last _) as [pic |] eqn:Hl; [| done]. simpl.
    rewrite last_lookup in Hl. by apply Hall in Hl. }
  cbn [scene v_frames]. rewrite Hlast. split.
  - simpl. rewrite <- Hcw. apply map_eq. intros r. apply Hkeep, not_elem_of_nil.
  - intros k pic Hk. by apply Hall in Hk.
Qed.

(** What was in the store before a call of [create_animation] is there
    after it, unchanged: the circles, lines and axes of earlier figures.
    The call works on objects of its own. *)
Theorem create_animation_preserves globals room rir idx (init_rir : list F) filename w w' :
  create_animation globals room rir idx init_rir filename w = Ok w' ->
  (forall p c, circles (scene w) !! p = Some c -> circles (scene w') !! p = Some c) /\
  (forall l d, lines (scene w) !! l = Some d -> lines (scene w') !! l = Some d) /\
  (forall a x, axes (scene w) !! a = Some x -> axes (scene w') !! a = Some x).
Proof.
  intros Hrun.
  destruct (create_animation_inv _ _ _ _ _ _ _ _ Hrun)
    as (ax_a & ax_b & w1 & mic & im & line & props & s1 & dims & d0 & d1 & frames &
        Hsub & _ & _ & Hplot & _ & _ & _ & _ & _ & _ & Hw').
  destruct (subplots2_spec w ax_a ax_b w1 Hsub) as (_ & _ & _ & Hcw & Hlw & Haw & _).
  destruct (plot_room_preserves _ _ _ _ _ _ _ _ _ _ _ Hplot) as (Hc & Hl & Ha).
  set (s0 := restrict_view ax_a d0 d1 s1) in *.
  assert (Hfinal : scene w' = s0 \/
                   exists n, scene w' = frame_scene ax_a line props rir (room_fs room) n s0).
  { rewrite Hw'. cbn [scene].
    destruct (last (run_frames ax_a line props rir (room_fs room) (arange frames) s0))
      as [pic |] eqn:Hlast; [| by left].
    right. rewrite last_lookup in Hlast.
    apply lookup_run_frames_inv in Hlast as [_ ->]. eauto. }
  assert (H0 : (forall p c, circles (scene w) !! p = Some c ->
                  circles s0 !! p = Some c /\ p ∉ props) /\
               (forall l d, lines (scene w) !! l = Some d ->
                  lines s0 !! l = Some d /\ l <> line) /\
               (forall a x, axes (scene w) !! a = Some x ->
                  axes s0 !! a = Some x /\ a <> ax_a)).
  { split_and!.
    - intros p c Hp. rewrite <- Hcw in Hp. by apply Hc.
    - intros l d Hd. rewrite <- Hlw in Hd. by apply Hl.
    - intros a x Hx. destruct (Haw a x Hx) as (Hsw & Hna & Hnb).
      split; [| done]. unfold s0, restrict_view. simpl. rewrite !lookup_alter_ne by done.
      rewrite (Ha a); done. }
  destruct H0 as (H0c & H0l & H0a).
  destruct Hfinal as [-> | [n ->]].
  - split_and!; [intros p c Hp; by apply H0c | intros l d Hd; by apply H0l |
                 intros a x Hx; by apply H0a].
  - unfold frame_scene. split_and!.
    + intros p c Hp. destruct (H0c p c Hp) as [Hs0 Hnot].
      rewrite circles_frame_loop. by rewrite decide_False.
    + intros l d Hd. destruct (H0l l d Hd) as [Hs0 Hne].
      rewrite lines_frame_loop. destruct props; [done |]. by rewrite lookup_alter_ne.
    + intros a x Hx. destruct (H0a a x Hx) as [Hs0 Hne].
      rewrite axes_frame_loop. destruct props; [done |]. by rewrite lookup_alter_ne.
Qed.

End CreateAnimationTheorems.

(** ** Indices, and the main block *)

Section ScriptRuns.
Context {F : Type} `{AF : Arith F}.

Implicit Types (s : Scene (F:=F)) (w : World (F:=F)) (room : Room (F:=F)) (rir : list F).

Lemma py_index_wrap {A} (l : list A) (i : Z) :
  0 <= i < Z.of_nat (length l) ->
  py_index l (i - Z.of_nat (length l)) = py_index l i.
Proof.
  intros Hi. unfold py_index.
  rewrite (bool_decide_eq_false_2 (0 <= i - _ < _)) by lia.
  rewrite (bool_decide_eq_true_2 (- _ <= i - _ < 0)) by lia.
  rewrite (bool_decide_eq_true_2 (0 <= i < _)) by lia.
  by replace (Z.of_nat (length l) + (i - Z.of_nat (length l))) with i by lia.
Qed.

Lemma py_index_outside {A} (l : list A) (i : Z) :
  i < - Z.of_nat (length l) \/ Z.of_nat (length l) <= i ->
  py_index l i = Raise IndexError.
Proof.
  intros Hi. unfold py_index.
  rewrite (bool_decide_eq_false_2 (0 <= i < _)) by lia.
  by rewrite (bool_decide_eq_false_2 (- _ <= i < 0)) by lia.
Qed.

(** [src_recv_idx] follows Python indexing: a negative index counts from
    the end, so [(i - len(mics), j - len(sources))] selects the same
    microphone and source as [(i, j)] and the two calls do the same. *)
Theorem create_animation_negative_index globals room rir (i j : Z) (init_rir : list F)
    filename w :
  0 <= i < Z.of_nat (length (room_mics room)) ->
  0 <= j < Z.of_nat (length (room_sources room)) ->
  create_animation globals room rir
    (i - Z.of_nat (length (room_mics room)), j - Z.of_nat (length (room_sources room)))
    init_rir filename w =
  create_animation globals room rir (i, j) init_rir filename w.
Proof.
  intros Hi Hj. unfold create_animation. cbn [fst snd].
  by rewrite (py_index_wrap (room_mics room) i Hi), (py_index_wrap (room_sources room) j Hj).
Qed.

(** An index outside [-len .. len - 1], for the microphone or for the
    source, ends the call with [IndexError], whatever the globals hold. *)
Theorem create_animation_index_error globals room rir idx (init_rir : list F) filename w :
  (idx.1 < - Z.of_nat (length (room_mics room)) \/
   Z.of_nat (length (room_mics room)) <= idx.1) \/
  (- Z.of_nat (length (room_mics room)) <= idx.1 < Z.of_nat (length (room_mics room)) /\
   (idx.2 < - Z.of_nat (length (room_sources room)) \/
    Z.of_nat (length (room_sources room)) <= idx.2)) ->
  create_animation globals room rir idx init_rir filename w = Raise IndexError.
Proof.
  intros Hidx. unfold create_animation. destruct (subplots2 w) as [[ax_a ax_b] w1].
  destruct Hidx as [Hmic | [Hmic Hsrc]].
  - rewrite (py_index_outside (room_mics room) idx.1 Hmic). reflexivity.
  - destruct (py_index (room_mics room) idx.1) as [e | mic] eqn:Hm.
    + exfalso. revert Hm. unfold py_index.
      case_bool_decide as H1.
      * destruct (lookup_lt_is_Some_2 (room_mics room) (Z.to_nat idx.1)) as [a ->]; [lia | done].
      * rewrite bool_decide_eq_true_2 by lia.
        destruct (lookup_lt_is_Some_2 (room_mics room)
                    (Z.to_nat (Z.of_nat (length (room_mics room)) + idx.1))) as [a ->];
          [lia | done].
    + simpl. rewrite (py_index_outside (room_sources room) idx.2 Hsrc). reflexivity.
Qed.

Lemma script_globals_ready : room_dim_ready script_globals.
Proof. exists [10; 6]. split; [reflexivity | simpl; lia]. Qed.

(** The main block renders both animations: it needs the responses
    [room.rir[0][0]] and [room.rir[1][1]], inputs that [plot_room] accepts
    for the pairs (0, 0) and (1, 1), a frame to render, and both
    responses, once the delay is removed, reaching the times of the last
    frame; it then leaves the two videos ["ism_anim_1.mp4"] and
    ["ism_anim_2.mp4"], each of [int(0.1 * fs)] frames at 60 frames per
    second, every other file as it was and no figure open that was not
    open before.  [room_dim] is bound there, so the call cannot miss it. *)
Theorem main_exports room (room_rir : list (list (list F))) (frac_delay_length : Z) w
    (row0 row1 : list (list F)) (h0 h1 : list F) (frames : Z) :
  py_index room_rir 0 = Ok row0 -> py_index row0 0 = Ok h0 ->
  py_index room_rir 1 = Ok row1 -> py_index row1 1 = Ok h1 ->
  plot_inputs_ready room (0, 0) -> plot_inputs_ready room (1, 1) ->
  frame_count (room_fs room) = Ok frames ->
  frames_ready frames (room_fs room) ->
  response_ready room (0, 0) (py_slice_from h0 (frac_delay_length `div` 2)) frames ->
  response_ready room (1, 1) (py_slice_from h1 (frac_delay_length `div` 2)) frames ->
  exists w' v1 v2,
    main room room_rir frac_delay_length w = Ok w' /\
    files w' !! "ism_anim_1.mp4"%string = Some v1 /\
    files w' !! "ism_anim_2.mp4"%string = Some v2 /\
    length (v_frames v1) = Z.to_nat frames /\ length (v_frames v2) = Z.to_nat frames /\
    v_fps v1 = 60 /\ v_fps v2 = 60 /\
    (forall name, name <> "ism_anim_1.mp4"%string -> name <> "ism_anim_2.mp4"%string ->
       files w' !! name = files w !! name) /\
    figures w' = figures w.
Proof.
  intros Hr0 Hh0 Hr1 Hh1 Hready0 Hready1 Hcount Hframes Hresp0 Hresp1.
  unfold main. rewrite Hr0. simpl. rewrite Hh0. simpl. rewrite Hr1. simpl. rewrite Hh1. simpl.
  destruct (create_animation_unfold script_globals room
              (py_slice_from h0 (frac_delay_length `div` 2)) default_src_recv_idx
              default_init_rir "ism_anim_1" w frames Hready0 script_globals_ready Hcount
              Hframes Hresp0)
    as (a1 & b1 & w1 & mic1 & im1 & line1 & props1 & s1 & dims1 & x1 & y1 &
        _ & _ & _ & _ & _ & _ & _ & ->).
  simpl.
  match goal with
  | |- context [create_animation _ _ ?r ?i ?init ?f ?w1] =>
      destruct (create_animation_unfold script_globals room r i init f w1 frames
                  Hready1 script_globals_ready Hcount Hframes Hresp1)
        as (a2 & b2 & w2 & mic2 & im2 & line2 & props2 & s2 & dims2 & x2 & y2 &
            _ & _ & _ & _ & _ & _ & _ & ->)
  end.
  eexists _, _, _. split; [reflexivity |]. simpl.
  split_and!.
  - rewrite lookup_insert_ne by done. apply lookup_insert_eq.
  - apply lookup_insert_eq.
  - simpl. by rewrite length_run_frames, length_arange.
  - simpl. by rewrite length_run_frames, length_arange.
  - done.
  - done.
  - intros name Hn1 Hn2. rewrite !lookup_insert_ne by done. done.
  - done.
Qed.

End ScriptRuns.

(** ** [create_animation] on the demo room *)

Lemma demo_plot_inputs_ready : plot_inputs_ready Demo.room (0, 0).
Proof.
  eexists _, _. split; [vm_compute; reflexivity |]. split; [vm_compute; reflexivity |].
  split_and!; [apply demo_room_polygon | simpl; lia | intros _; apply demo_source_consistent].
Qed.

Lemma demo_room_dim_ready : room_dim_ready Demo.globals.
Proof. eexists. split; [vm_compute; reflexivity | simpl; lia]. Qed.

Lemma slow_room_inputs_ready : plot_inputs_ready Demo.slow_room (0, 0).
Proof.
  eexists _, _. split; [vm_compute; reflexivity |]. split; [vm_compute; reflexivity |].
  split_and!; [apply demo_room_polygon | simpl; lia | intros _; apply demo_source_consistent].
Qed.

Lemma slow_room_frame_count : frame_count (F:=float) 100 = Ok 10.
Proof. vm_compute. reflexivity. Qed.

Lemma slow_room_frames_ready : frames_ready 10 100.
Proof. split_and!; [lia | lia | vm_compute; reflexivity]. Qed.

Lemma slow_room_response_ready : response_ready Demo.slow_room (0, 0) Demo.long_rir 10.
Proof. intros im _. right. right. simpl. lia. Qed.

Lemma slow_room_run :
  exists w', create_animation Demo.globals Demo.slow_room Demo.long_rir (0, 0) [] "ism_anim"
               Demo.empty_world = Ok w' /\
             is_Some (files w' !! ("ism_anim" ++ ".mp4")%string).
Proof.
  destruct (create_animation_unfold Demo.globals Demo.slow_room Demo.long_rir (0, 0) []
              "ism_anim" Demo.empty_world 10 slow_room_inputs_ready demo_room_dim_ready
              slow_room_frame_count slow_room_frames_ready slow_room_response_ready)
    as (ax_a & ax_b & w1 & mic & im & line & props & s1 & dims & d0 & d1 &
        _ & _ & _ & _ & _ & _ & _ & Heq).
  eexists. split; [exact Heq |]. cbn [files]. rewrite lookup_insert_eq. eauto.
Qed.




Lemma create_animation_needs_room_dim_witness :
  exists w1, subplots2 Demo.empty_world = (0%nat, 1%nat, w1) /\
  ~ succeeds (create_animation ∅ Demo.room Demo.rir (0, 0) [] "ism_anim" Demo.empty_world) /\
  (forall e, py_index (room_mics Demo.room) (0, 0).1 = Raise e ->
     create_animation ∅ Demo.room Demo.rir (0, 0) [] "ism_anim" Demo.empty_world = Raise e) /\
  (forall (mic : list float) e,
     py_index (room_mics Demo.room) (0, 0).1 = Ok mic ->
     py_index (room_sources Demo.room) (0, 0).2 = Raise e ->
     create_animation ∅ Demo.room Demo.rir (0, 0) [] "ism_anim" Demo.empty_world = Raise e) /\
  (forall (mic : list float) im e,
     py_index (room_mics Demo.room) (0, 0).1 = Ok mic ->
     py_index (room_sources Demo.room) (0, 0).2 = Ok im ->
     plot_room (0%nat, 1%nat) (room_walls Demo.room) mic im (room_max_order Demo.room)
               (room_fs Demo.room) [] (scene w1) = Raise e ->
     create_animation ∅ Demo.room Demo.rir (0, 0) [] "ism_anim" Demo.empty_world = Raise e) /\
  (forall (mic : list float) im (line : loc) (props : list loc) s1,
     py_index (room_mics Demo.room) (0, 0).1 = Ok mic ->
     py_index (room_sources Demo.room) (0, 0).2 = Ok im ->
     plot_room (0%nat, 1%nat) (room_walls Demo.room) mic im (room_max_order Demo.room)
               (room_fs Demo.room) [] (scene w1) = Ok (line, props, s1) ->
     create_animation ∅ Demo.room Demo.rir (0, 0) [] "ism_anim" Demo.empty_world =
     Raise (NameError "room_dim")) /\
  (plot_inputs_ready Demo.room (0, 0) ->
     create_animation ∅ Demo.room Demo.rir (0, 0) [] "ism_anim" Demo.empty_world =
     Raise (NameError "room_dim")).
Proof.
  eexists. split; [vm_compute; reflexivity |].
  apply (create_animation_needs_room_dim (F:=float) ∅ Demo.room Demo.rir (0, 0) []
           "ism_anim" Demo.empty_world 0%nat 1%nat); reflexivity.
Defined.

(** C5 as stated fails: with [room_dim] unbound and a microphone index out
    of range, the exception is [IndexError], raised before [room_dim] is
    read. *)
Lemma create_animation_index_error_first :
  (∅ : gmap string (list Z)) !! "room_dim"%string = None /\
  create_animation ∅ Demo.room Demo.rir (2, 0) [] "ism_anim" Demo.empty_world = Raise IndexError /\
  Raise (A:=World (F:=float)) IndexError <> Raise (NameError "room_dim").
Proof.
  split; [reflexivity |]. split; [vm_compute; reflexivity | discriminate].
Qed.

(** C4 fails on the code: the same arguments in the same world give
    different view limits under two bindings of the module-level name
    [room_dim], and an exception when it is unbound.  The room has ten
    frames and the response twelve samples, so the two calls that find
    [room_dim] run to their end. *)
Theorem create_animation_depends_on_globals :
  Demo.xlim_right (create_animation Demo.globals Demo.slow_room Demo.long_rir (0, 0) []
                     "ism_anim" Demo.empty_world) = Some 10 /\
  Demo.xlim_right (create_animation Demo.other_globals Demo.slow_room Demo.long_rir (0, 0) []
                     "ism_anim" Demo.empty_world) = Some 5 /\
  create_animation ∅ Demo.slow_room Demo.long_rir (0, 0) [] "ism_anim" Demo.empty_world =
    Raise (NameError "room_dim") /\
  create_animation Demo.globals Demo.slow_room Demo.long_rir (0, 0) [] "ism_anim"
    Demo.empty_world <>
  create_animation Demo.other_globals Demo.slow_room Demo.long_rir (0, 0) [] "ism_anim"
    Demo.empty_world.
Proof.
  assert (H10 : Demo.xlim_right (create_animation Demo.globals Demo.slow_room Demo.long_rir
                                   (0, 0) [] "ism_anim" Demo.empty_world) = Some 10)
    by (vm_compute; reflexivity).
  assert (H5 : Demo.xlim_right (create_animation Demo.other_globals Demo.slow_room
                                  Demo.long_rir (0, 0) [] "ism_anim" Demo.empty_world) = Some 5)
    by (vm_compute; reflexivity).
  split_and!; [done | done | vm_compute; reflexivity |].
  intros Heq. rewrite Heq in H10. congruence.
Qed.

(** ** The alpha of the frames *)

(** [animate] assigns [frame_alpha n fs] to the attribute [alpha] of every
    listed circle. *)
Lemma animate_assigns_alpha {F} `{Arith F} (n fs : Z) (ax line : loc) (props : list loc)
    (rir : list F) (s : Scene) :
  fs <> 0 -> truediv_overflows n fs = false ->
  Forall (fun p => is_Some (circles s !! p)) props ->
  exists s', animate n ax line props rir fs s = Ok s' /\
    Forall (fun p => exists c, circles s' !! p = Some c /\
                       c_alpha c = Some (frame_alpha n fs)) props.
Proof.
  intros Hfs Hrange Hlive. eexists. split; [by apply animate_unfold |].
  apply Forall_forall. intros p Hin.
  apply (circles_loop_set _ _ _ _ _ _ (fun c => c_alpha c = Some (frame_alpha n fs)));
    [reflexivity | done | by eapply live_lookup].
Qed.

(** *** Exact arithmetic *)

Lemma frame_count_exact (fs : Z) : frame_count (F:=Q) fs = Ok (Z.quot fs 10).
Proof.
  unfold frame_count, py_int. simpl. unfold Q_trunc. simpl.
  by rewrite Z.mul_1_l.
Qed.


Lemma driven_frame_exact (fs n : Z) :
  0 <= n < Z.quot fs 10 -> exists p, fs = Zpos p /\ 10 * n < Zpos p.
Proof.
  intros Hn.
  pose proof (Z.quot_rem' fs 10) as Hqr.
  destruct fs as [| p | p].
  - rewrite Z.quot_0_l in Hn by lia. lia.
  - exists p. split; [done |].
    pose proof (Z.rem_bound_pos (Zpos p) 10 ltac:(lia) ltac:(lia)). lia.
  - pose proof (Z.rem_bound_abs (Zneg p) 10 ltac:(lia)). lia.
Qed.




(** *** Binary64 *)








(** ** How far the wavefront gets *)

Lemma frame_radius_exact (n : Z) (p : positive) :
  frame_radius (F:=Q) n (Zpos p) = (Qmake n p * 343)%Q.
Proof.
  unfold frame_radius. simpl. unfold Qdiv, Qinv, Qmult. simpl.
  by rewrite !Z.mul_1_r, Pos.mul_1_l.
Qed.

Lemma frame_radius_exact_bounds (fs n : Z) :
  0 <= n < Z.quot fs 10 ->
  (0 <= frame_radius (F:=Q) n fs)%Q /\ (frame_radius (F:=Q) n fs < 343 # 10)%Q.
Proof.
  intros Hn. destruct (driven_frame_exact fs n Hn) as (p & -> & Hlt).
  rewrite frame_radius_exact. unfold Qlt, Qle, Qmult. simpl. split; nia.
Qed.

Lemma frame_radius_exact_increasing (fs n m : Z) :
  0 <= n -> n < m -> m < Z.quot fs 10 ->
  (frame_radius (F:=Q) n fs < frame_radius (F:=Q) m fs)%Q.
Proof.
  intros Hn Hnm Hm.
  destruct (driven_frame_exact fs m ltac:(lia)) as (p & -> & Hlt).
  rewrite !frame_radius_exact. unfold Qlt, Qmult. simpl. nia.
Qed.

Lemma wavefront_check_sound (fs : Z) (fuel : nat) : forall n0,
  Wavefront.check_from fuel fs n0 = true ->
  forall k : nat, (k < fuel)%nat ->
    Wavefront.radius_in_range fs (n0 + Z.of_nat k) = true /\
    ((S k < fuel)%nat -> Wavefront.radius_grows fs (n0 + Z.of_nat k) = true).
Proof.
  induction fuel as [| fuel IH]; intros n0 Hchk k Hk; [lia |].
  cbn [Wavefront.check_from] in Hchk.
  apply andb_prop in Hchk as [Hchk Hrest]. apply andb_prop in Hchk as [Hrange Hgrow].
  destruct k as [| k].
  - rewrite Z.add_0_r. split; [done |].
    intros Hmore. destruct fuel as [| fuel']; [lia | done].
  - replace (n0 + Z.of_nat (S k)) with (n0 + 1 + Z.of_nat k) by lia.
    destruct (IH (n0 + 1) Hrest k ltac:(lia)) as [Hr Hg].
    split; [done |]. intros Hmore. apply Hg. lia.
Qed.

Lemma wavefront_rates_checked : forallb Wavefront.check_rate Frames.audio_rates = true.
Proof. vm_compute. reflexivity. Qed.

(** In the frames that [create_animation] drives, [0 <= n < int(0.1 * fs)],
    the radius [(n / fs) * 343.0] is not negative, stays below 34.3 m (what
    sound covers in 0.1 s) and grows with [n]: in exact arithmetic for
    every sampling rate, and in binary64 for the usual audio sampling rates,
    there from one frame to the next. *)
Theorem frame_radius_bounds (fs n : Z) :
  (forall count, frame_count (F:=Q) fs = Ok count -> 0 <= n < count ->
     (0 <= frame_radius (F:=Q) n fs)%Q /\
     (frame_radius (F:=Q) n fs < 343 # 10)%Q /\
     (forall m, n < m < count ->
        (frame_radius (F:=Q) n fs < frame_radius (F:=Q) m fs)%Q)) /\
  (fs ∈ Frames.audio_rates ->
   forall count, frame_count (F:=float) fs = Ok count -> 0 <= n < count ->
     PrimFloat.leb 0 (frame_radius (F:=float) n fs) = true /\
     PrimFloat.ltb (frame_radius (F:=float) n fs) (of_dec 343 1) = true /\
     (n + 1 < count ->
        PrimFloat.ltb (frame_radius (F:=float) n fs) (frame_radius (F:=float) (n + 1) fs)
        = true)).
Proof.
  split.
  - intros count Hcount Hn. rewrite frame_count_exact in Hcount.
    injection Hcount as <-.
    destruct (frame_radius_exact_bounds fs n Hn) as [Hpos Hlt].
    split_and!; [done | done |].
    intros m Hm. apply frame_radius_exact_increasing; lia.
  - intros Hin count Hcount Hn.
    assert (Hchk : Wavefront.check_rate fs = true).
    { apply (proj1 (forallb_forall _ _) wavefront_rates_checked). by apply list_elem_of_In. }
    unfold Wavefront.check_rate in Hchk. rewrite Hcount in Hchk.
    destruct (wavefront_check_sound fs (Z.to_nat count) 0 Hchk (Z.to_nat n) ltac:(lia))
      as [Hr Hg].
    rewrite Z.add_0_l, Z2Nat.id in Hr, Hg by lia.
    unfold Wavefront.radius_in_range in Hr. apply andb_prop in Hr as [Hnonneg Hbelow].
    split_and!; [done | done |].
    intros Hmore. apply Hg. lia.
Qed.

(** ** Runs on concrete inputs *)

Example format_frame_799 : format_3f (truediv (F:=float) 799 8000) = "0.100"%string.
Proof. vm_compute. reflexivity. Qed.

Example format_half_even : format_3f (truediv (F:=float) 1 16) = "0.062"%string.
Proof. vm_compute. reflexivity. Qed.

Example format_negative_zero : format_3f (truediv (F:=float) 0 (-5)) = "-0.000"%string.
Proof. vm_compute. reflexivity. Qed.

Example literal_tenth : of_dec (F:=float) 1 1 = 0x1.999999999999ap-4%float.
Proof. vm_compute. reflexivity. Qed.

Example literal_343 : of_int (F:=float) 343 = 343%float.
Proof. vm_compute. reflexivity. Qed.

Example py_index_last : py_index [10; 20; 30] (-1) = Ok 30.
Proof. reflexivity. Qed.

Example py_index_out_of_range : py_index [10; 20; 30] 3 = Raise IndexError.
Proof. reflexivity. Qed.

Example py_slice_to_negative : py_slice_to [10; 20; 30] (-1) = [10; 20].
Proof. reflexivity. Qed.

Example frame_count_zero_rate : frame_count (F:=float) 0 = Ok 0.
Proof. vm_compute. reflexivity. Qed.

(** Frame 400 of 8000 Hz: 0.05 s, a radius of 17.15 m, alpha one half. *)
Example radius_at_frame_400 :
  fmul (truediv (F:=float) 400 8000) (of_int 343) = 0x1.1266666666667p+4%float /\
  frame_alpha (F:=float) 400 8000 = 0.5%float /\
  frame_title (truediv (F:=float) 400 8000) =
    "Room Impulse Response of a shoebox room (t = 0.050s)"%string.
Proof. split_and!; vm_compute; reflexivity. Qed.

Example animate_zero_rate :
  animate 4 0%nat 0%nat Demo.propagations Demo.rir 0 Demo.scene3 = Raise ZeroDivisionError.
Proof. reflexivity. Qed.

(** At the sampling rate [2^62] the last frame gets the alpha 0.0. *)
Example frame_alpha_zero :
  frame_count (F:=float) (2 ^ 62) = Ok 461168601842738816 /\
  frame_alpha (F:=float) 461168601842738815 (2 ^ 62) = 0%float.
Proof. split; vm_compute; reflexivity. Qed.

(** The demo room: the circles of the orders 0 and 1, in this order. *)
Example demo_expected_positions :
  expected_positions Demo.source 1 =
  [(of_int 2, of_int 4); (of_int (-2), of_int 4); (of_int 18, of_int 4);
   (of_int 2, of_int (-4)); (of_int 2, of_int 8)].
Proof. vm_compute. reflexivity. Qed.

(** ** The further properties on the demo inputs *)

Lemma demo_animate_frame (n : Z) :
  truediv_overflows n 8000 = false ->
  animate n 0%nat 0%nat Demo.propagations Demo.rir 8000 Demo.scene3 = Ok (Demo2.after_frame n).
Proof.
  unfold Demo2.after_frame.
  intros Hrange.
  exact (animate_frame_scene (F:=float) n 8000 0%nat 0%nat Demo.propagations Demo.rir
           Demo.scene3 ltac:(lia) Hrange).
Qed.

Lemma animate_footprint_witness :
  dom (circles (Demo2.after_frame 5)) = dom (circles Demo.scene3) /\
  dom (lines (Demo2.after_frame 5)) = dom (lines Demo.scene3) /\
  dom (axes (Demo2.after_frame 5)) = dom (axes Demo.scene3) /\
  (forall p c, circles Demo.scene3 !! p = Some c ->
     exists c', circles (Demo2.after_frame 5) !! p = Some c' /\
       c_center c' = c_center c /\ c_fill c' = c_fill c /\
       c_linewidth c' = c_linewidth c /\ c_edgecolor c' = c_edgecolor c /\
       (p ∉ Demo.propagations -> c' = c)) /\
  (forall l, l <> 0%nat -> lines (Demo2.after_frame 5) !! l = lines Demo.scene3 !! l) /\
  (forall l d, lines Demo.scene3 !! l = Some d ->
     exists d', lines (Demo2.after_frame 5) !! l = Some d' /\ l_color d' = l_color d) /\
  (forall a, a <> 0%nat -> axes (Demo2.after_frame 5) !! a = axes Demo.scene3 !! a) /\
  (forall a x, axes Demo.scene3 !! a = Some x ->
     exists x', axes (Demo2.after_frame 5) !! a = Some x' /\
       ax_artists x' = ax_artists x /\ ax_cycle x' = ax_cycle x /\
       ax_xlim x' = ax_xlim x /\ ax_ylim x' = ax_ylim x /\
       ax_xlabel x' = ax_xlabel x /\ ax_ylabel x' = ax_ylabel x /\
       ax_aspect x' = ax_aspect x).
Proof.
  apply (animate_footprint (F:=float) 5 8000 0%nat 0%nat Demo.propagations Demo.rir
           Demo.scene3 (Demo2.after_frame 5)).
  apply demo_animate_frame. reflexivity.
Defined.

Lemma animate_overwrites_witness :
  animate 7 0%nat 0%nat Demo.propagations Demo.rir 8000 (Demo2.after_frame 5) =
  animate 7 0%nat 0%nat Demo.propagations Demo.rir 8000 Demo.scene3.
Proof.
  apply (animate_overwrites (F:=float) 5 7 8000 0%nat 0%nat Demo.propagations Demo.rir
           Demo.scene3 (Demo2.after_frame 5)).
  apply demo_animate_frame. reflexivity.
Defined.


Lemma exported_circles_witness :
  exists w' video,
    create_animation Demo.globals Demo.slow_room Demo.long_rir (0, 0) [] "ism_anim"
      Demo.empty_world = Ok w' /\
    files w' !! ("ism_anim" ++ ".mp4")%string = Some video /\
    forall (k : nat) pic, v_frames video !! k = Some pic ->
      forall p c, circles pic !! p = Some c -> circles (scene Demo.empty_world) !! p = None ->
        c_radius c = frame_radius (Z.of_nat k) (room_fs Demo.slow_room) /\
        c_alpha c = Some (frame_alpha (Z.of_nat k) (room_fs Demo.slow_room)).
Proof.
  destruct slow_room_run as (w' & Hrun & video & Hfile).
  exists w', video. split; [exact Hrun |]. split; [exact Hfile |].
  exact (exported_circles (F:=float) Demo.globals Demo.slow_room Demo.long_rir (0, 0) [] "ism_anim"
           Demo.empty_world w' video Hrun Hfile).
Defined.

Lemma exported_reveal_witness :
  exists w' video,
    create_animation Demo.globals Demo.slow_room Demo.long_rir (0, 0) [] "ism_anim"
      Demo.empty_world = Ok w' /\
    files w' !! ("ism_anim" ++ ".mp4")%string = Some video /\
    exists line, lines (scene Demo.empty_world) !! line = None /\
      forall (k : nat) pic, v_frames video !! k = Some pic ->
        exists l, lines pic !! line = Some l /\
          l_ydata l = take k Demo.long_rir /\
          length (l_xdata l) = k /\
          forall j, (j < k)%nat ->
            l_xdata l !! j =
            Some (fdiv (of_int (Z.of_nat j)) (of_int (room_fs Demo.slow_room))).
Proof.
  destruct slow_room_run as (w' & Hrun & video & Hfile).
  exists w', video. split; [exact Hrun |]. split; [exact Hfile |].
  apply (exported_reveal (F:=float) Demo.globals Demo.slow_room Demo.long_rir (0, 0) []
           "ism_anim" Demo.empty_world w' video Demo.source Hrun Hfile).
  - vm_compute. reflexivity.
  - vm_compute. discriminate.
Defined.

Lemma bare_room_run :
  exists w', create_animation Demo.globals Demo2.bare_room Demo.rir (0, 0) [] "ism_anim"
               Demo.empty_world = Ok w' /\
             is_Some (files w' !! ("ism_anim" ++ ".mp4")%string).
Proof.
  assert (Hready : plot_inputs_ready Demo2.bare_room (0, 0)).
  { eexists _, _. split; [vm_compute; reflexivity |]. split; [vm_compute; reflexivity |].
    split_and!; [apply demo_room_polygon | simpl; lia | intros _; apply demo_source_consistent]. }
  assert (Hresp : response_ready Demo2.bare_room (0, 0) Demo.rir 10).
  { intros im Him. left. vm_compute in Him. injection Him as <-. vm_compute. reflexivity. }
  destruct (create_animation_unfold Demo.globals Demo2.bare_room Demo.rir (0, 0) [] "ism_anim"
              Demo.empty_world 10 Hready demo_room_dim_ready slow_room_frame_count
              slow_room_frames_ready Hresp)
    as (ax_a & ax_b & w1 & mic & im & line & props & s1 & dims & d0 & d1 &
        _ & _ & _ & _ & _ & _ & _ & Heq).
  eexists. split; [exact Heq |]. cbn [files]. rewrite lookup_insert_eq. eauto.
Qed.

Lemma exported_static_witness :
  exists w' video,
    create_animation Demo.globals Demo2.bare_room Demo.rir (0, 0) [] "ism_anim"
      Demo.empty_world = Ok w' /\
    files w' !! ("ism_anim" ++ ".mp4")%string = Some video /\
    circles (scene w') = circles (scene Demo.empty_world) /\
    forall (k : nat) pic, v_frames video !! k = Some pic -> pic = scene w'.
Proof.
  destruct bare_room_run as (w' & Hrun & video & Hfile).
  exists w', video. split; [exact Hrun |]. split; [exact Hfile |].
  apply (exported_static (F:=float) Demo.globals Demo2.bare_room Demo.rir (0, 0) [] "ism_anim"
           Demo.empty_world w' video Demo.source Hrun Hfile).
  - vm_compute. reflexivity.
  - vm_compute. reflexivity.
Defined.

Lemma create_animation_negative_index_witness :
  create_animation Demo.globals Demo.slow_room Demo.rir
    (1 - Z.of_nat (length (room_mics Demo.slow_room)),
     0 - Z.of_nat (length (room_sources Demo.slow_room)))
    [] "ism_anim" Demo.empty_world =
  create_animation Demo.globals Demo.slow_room Demo.rir (1, 0) [] "ism_anim" Demo.empty_world.
Proof.
  apply (create_animation_negative_index (F:=float) Demo.globals Demo.slow_room Demo.rir 1 0 []
           "ism_anim" Demo.empty_world); simpl; lia.
Defined.

Lemma create_animation_index_error_witness :
  create_animation Demo.globals Demo.slow_room Demo.rir (0, -2) [] "ism_anim" Demo.empty_world =
  Raise IndexError.
Proof.
  apply (create_animation_index_error (F:=float) Demo.globals Demo.slow_room Demo.rir (0, -2) []
           "ism_anim" Demo.empty_world).
  right. simpl. lia.
Defined.

Lemma source2_consistent : consistent Demo2.source2.
Proof. eexists _, _. split_and!; reflexivity. Qed.

Lemma main_exports_witness :
  exists w' v1 v2,
    main Demo2.script_room Demo2.room_rir 3 Demo.empty_world = Ok w' /\
    files w' !! "ism_anim_1.mp4"%string = Some v1 /\
    files w' !! "ism_anim_2.mp4"%string = Some v2 /\
    length (v_frames v1) = Z.to_nat 10 /\ length (v_frames v2) = Z.to_nat 10 /\
    v_fps v1 = 60 /\ v_fps v2 = 60 /\
    (forall name, name <> "ism_anim_1.mp4"%string -> name <> "ism_anim_2.mp4"%string ->
       files w' !! name = files Demo.empty_world !! name) /\
    figures w' = figures Demo.empty_world.
Proof.
  eapply (main_exports (F:=float) Demo2.script_room Demo2.room_rir 3 Demo.empty_world).
  - vm_compute. reflexivity.
  - vm_compute. reflexivity.
  - vm_compute. reflexivity.
  - vm_compute. reflexivity.
  - eexists _, _. split; [vm_compute; reflexivity |]. split; [vm_compute; reflexivity |].
    split_and!; [apply demo_room_polygon | simpl; lia | intros _; apply demo_source_consistent].
  - eexists _, _. split; [vm_compute; reflexivity |]. split; [vm_compute; reflexivity |].
    split_and!; [apply demo_room_polygon | simpl; lia | intros _; apply source2_consistent].
  - apply slow_room_frame_count.
  - apply slow_room_frames_ready.
  - intros im _. right. right. vm_compute. discriminate.
  - intros im _. right. right. vm_compute. discriminate.
Defined.

Lemma demo_plot_room_run :
  exists line props s',
    plot_room (0%nat, 1%nat) (room_walls Demo.room) [of_dec 6316 3; of_dec 4123 3]
              Demo.source 1 8000 Demo.rir Demo.scene3 = Ok (line, props, s').
Proof.
  destruct (plot_room_unfold (F:=float) (0%nat, 1%nat) (room_walls Demo.room)
              [of_dec 6316 3; of_dec 4123 3] Demo.source 1 8000 Demo.rir Demo.scene3)
    as (props & s1 & _ & Heq).
  - split_and!; [apply demo_room_polygon | simpl; lia | intros _; apply demo_source_consistent].
  - eexists _, _, _. exact Heq.
Qed.

Lemma plot_room_draws_circles_witness :
  exists line props s' a' b',
    plot_room (0%nat, 1%nat) (room_walls Demo.room) [of_dec 6316 3; of_dec 4123 3]
              Demo.source 1 8000 Demo.rir Demo.scene3 = Ok (line, props, s') /\
    axes s' !! 0%nat = Some a' /\ axes s' !! 1%nat = Some b' /\
    patch_refs a' = patch_refs (F:=float) empty_axes ++ props /\
    line_refs a' = line_refs (F:=float) empty_axes /\
    patch_refs b' = patch_refs (F:=float) empty_axes.
Proof.
  destruct demo_plot_room_run as (line & props & s' & Hrun).
  destruct (plot_room_draws_circles (F:=float) (0%nat, 1%nat) (room_walls Demo.room)
              [of_dec 6316 3; of_dec 4123 3] Demo.source 1 8000 Demo.rir Demo.scene3
              line props s' empty_axes empty_axes) as (a' & b' & H);
    [simpl; lia | vm_compute; reflexivity | vm_compute; reflexivity | exact Hrun |].
  by exists line, props, s', a', b'.
Defined.

Lemma plot_room_negative_order_witness :
  exists line s',
    plot_room (0%nat, 1%nat) (room_walls Demo.room) [of_dec 6316 3; of_dec 4123 3]
              (mkSoundSource [[of_int 2]] [0; 1]) (-1) 8000 [] Demo.scene3 = Ok (line, [], s') /\
    circles s' = circles Demo.scene3.
Proof.
  apply (plot_room_negative_order (F:=float) (0%nat, 1%nat) (room_walls Demo.room)
           [of_dec 6316 3; of_dec 4123 3] (mkSoundSource [[of_int 2]] [0; 1]) (-1) 8000 []
           Demo.scene3); [lia | apply demo_room_polygon | simpl; lia].
Defined.

Lemma scene3_world_run :
  exists w', create_animation Demo.globals Demo.slow_room Demo.long_rir (0, 0) [] "ism_anim"
               Demo2.scene3_world = Ok w'.
Proof.
  destruct (create_animation_unfold Demo.globals Demo.slow_room Demo.long_rir (0, 0) []
              "ism_anim" Demo2.scene3_world 10 slow_room_inputs_ready demo_room_dim_ready
              slow_room_frame_count slow_room_frames_ready slow_room_response_ready)
    as (ax_a & ax_b & w1 & mic & im & line & props & s1 & dims & d0 & d1 &
        _ & _ & _ & _ & _ & _ & _ & Heq).
  eexists. exact Heq.
Qed.

Lemma create_animation_preserves_witness :
  exists w',
    create_animation Demo.globals Demo.slow_room Demo.long_rir (0, 0) [] "ism_anim"
      Demo2.scene3_world = Ok w' /\
    (forall p c, circles (scene Demo2.scene3_world) !! p = Some c ->
       circles (scene w') !! p = Some c) /\
    (forall l d, lines (scene Demo2.scene3_world) !! l = Some d ->
       lines (scene w') !! l = Some d) /\
    (forall a x, axes (scene Demo2.scene3_world) !! a = Some x ->
       axes (scene w') !! a = Some x).
Proof.
  destruct scene3_world_run as (w' & Hrun).
  exists w'. split; [exact Hrun |].
  exact (create_animation_preserves (F:=float) Demo.globals Demo.slow_room Demo.long_rir (0, 0) []
           "ism_anim" Demo2.scene3_world w' Hrun).
Defined.
